(** * txoauth2: the reference implementations of [txoauth2/imp.py]

    A shallow embedding of the three reference implementations shipped with
    the OAuth2 toolkit -- [UUIDTokenFactory], [ConfigParserClientStorage] and
    [DictTokenStorage] -- together with the parts of the token endpoint that
    the unit tests pin down, and the properties the specification states
    about them.

    Conventions.
    - Python text is a [string]; its characters stand for the code points
      below 256.
    - A point in time ([time.time()], [expireTime]) is a [Z]: the code only
      compares such values, and the comparison of two (non-NaN) numbers is a
      total order.
    - A method that reads the clock takes the value read as its argument
      [now].
    - A method is a function from the heap to an outcome and a heap; the heap
      after a raised exception is the heap at the point of the raise. *)

From Stdlib Require Import ZArith String Ascii List Bool Lia.
From stdpp Require Import base option gmap strings list.

Local Open Scope string_scope.
Local Open Scope Z_scope.
Local Open Scope list_scope.

(** ** Python values and exceptions *)

(** The values the modelled code passes around without looking inside. *)
#[warnings="-register-all"]
Inductive pyobj : Type :=
  | PyNone
  | PyStr (s : string)
  | PyInt (n : Z)
  | PyList (xs : list pyobj).

(** [a == b] on these values. *)
Fixpoint py_eqb (a b : pyobj) {struct a} : bool :=
  match a, b with
  | PyNone, PyNone => true
  | PyStr s, PyStr t => bool_decide (s = t)
  | PyInt n, PyInt m => bool_decide (n = m)
  | PyList xs, PyList ys =>
      (fix go (xs ys : list pyobj) {struct xs} : bool :=
         match xs, ys with
         | [], [] => true
         | x :: xs', y :: ys' => py_eqb x y && go xs' ys'
         | _, _ => false
         end) xs ys
  | _, _ => false
  end.

(** [x in l] for a Python list [l]. *)
Definition py_in (x : pyobj) (l : list pyobj) : bool := existsb (py_eqb x) l.

Inductive exn : Type :=
  | KeyError
  | ValueError
  | AttributeError
  | TypeError
  | NoSectionError
  | DuplicateSectionError
  | NoOptionError
  | OSError.

Inductive result (A : Type) : Type :=
  | Ok (a : A)
  | Raise (e : exn).
Arguments Ok {A} a.
Arguments Raise {A} e.

(** ** Effects: a state-and-exception monad *)

Module Eff.
Definition M (S A : Type) : Type := S -> result A * S.

Definition ret {S A} (a : A) : M S A := fun h => (Ok a, h).
Definition raise {S A} (e : exn) : M S A := fun h => (Raise e, h).
Definition bind {S A B} (m : M S A) (k : A -> M S B) : M S B :=
  fun h => match m h with
           | (Ok a, h') => k a h'
           | (Raise e, h') => (Raise e, h')
           end.
End Eff.

Notation "'let!' x ':=' m 'in' k" := (Eff.bind m (fun x => k))
  (at level 10, x name, m at level 200, k at level 200).

(** ** DictTokenStorage *)

Module DictTokenStorage.

(** The value stored under a token: the dict with the keys ['data'],
    ['expireTime'] and ['scope']. *)
Record TokenRecord : Type := mkRecord {
  data : pyobj;
  expireTime : option Z;
  scope : list pyobj
}.

(** The heap.  [_tokens = {}] is written in the class body, the class has
    no [__init__], and no method assigns [self._tokens]: the attribute of
    every instance resolves to this one dict object, which the methods
    mutate in place.  An instance is therefore just an object identity. *)
Record Heap : Type := mkHeap {
  cls_tokens : gmap string TokenRecord;
  next_id : nat
}.

Definition Instance : Type := nat.

Definition initial : Heap := {| cls_tokens := ∅; next_id := 0%nat |}.

(** [DictTokenStorage()]: a new object, no attribute of its own. *)
Definition new (h : Heap) : Instance * Heap :=
  (next_id h, {| cls_tokens := cls_tokens h; next_id := S (next_id h) |}).

(** [self._tokens]: found on the class, whatever [self] is. *)
Definition self_tokens (self : Instance) (h : Heap) : gmap string TokenRecord :=
  cls_tokens h.

(** A mutation of the dict [self._tokens] refers to. *)
Definition set_self_tokens (self : Instance) (t : gmap string TokenRecord)
    (h : Heap) : Heap :=
  {| cls_tokens := t; next_id := next_id h |}.

Definition M := Eff.M Heap.

(** [self._tokens[token]] *)
Definition getitem (self : Instance) (token : string) : M TokenRecord :=
  fun h => match self_tokens self h !! token with
           | Some r => (Ok r, h)
           | None => (Raise KeyError, h)
           end.

(** [_checkExpire] *)
Definition _checkExpire (self : Instance) (token : string) (now : Z) : M bool :=
  let! r := getitem self token in
  match expireTime r with
  | Some e =>
      if (now >? e)%Z
      then fun h => (Ok true, set_self_tokens self (delete token (self_tokens self h)) h)
      else Eff.ret false
  | None => Eff.ret false
  end.

(** [contains] *)
Definition contains (self : Instance) (token : string) (now : Z) : M bool :=
  fun h =>
    match self_tokens self h !! token with
    | None => (Ok false, h)
    | Some _ => (let! b := _checkExpire self token now in Eff.ret (negb b)) h
    end.

(** The [for] loop of [hasAccess]. *)
Fixpoint hasAccess_loop (self : Instance) (token : string)
    (scope : list pyobj) : M bool :=
  match scope with
  | [] => Eff.ret true
  | scopeItem :: rest =>
      let! r := getitem self token in
      if negb (py_in scopeItem (DictTokenStorage.scope r))
      then Eff.ret false
      else hasAccess_loop self token rest
  end.

(** [hasAccess] *)
Definition hasAccess (self : Instance) (token : string) (scope : list pyobj)
    (now : Z) : M bool :=
  let! expired := _checkExpire self token now in
  if expired then Eff.raise KeyError
  else hasAccess_loop self token scope.

(** [getTokenData]: the result of [_checkExpire] is dropped; the two reads
    that follow are what fails for a record it has just deleted. *)
Definition getTokenData (self : Instance) (token : string) (now : Z)
    : M (list pyobj * pyobj) :=
  let! _ := _checkExpire self token now in
  let! r1 := getitem self token in
  let! r2 := getitem self token in
  Eff.ret (DictTokenStorage.scope r1, data r2).

(** [store].  [client] is not used by the body. *)
Definition store {Client : Type} (self : Instance) (token : pyobj) (client : Client)
    (scope : pyobj) (additionalData : pyobj) (expireTime : option Z)
    (now : Z) : M unit :=
  match token with
  | PyStr tok =>
      let scope := match scope with PyList xs => xs | _ => [scope] end in
      if match expireTime with Some e => (e <=? now)%Z | None => false end
      then Eff.ret tt
      else fun h =>
        (Ok tt,
         set_self_tokens self
           (<[tok := {| data := additionalData;
                        expireTime := expireTime;
                        scope := scope |}]> (self_tokens self h)) h)
  | _ => Eff.raise ValueError
  end.

(** The heap after [del self._tokens[token]]. *)
Definition purged (self : Instance) (token : string) (h : Heap) : Heap :=
  set_self_tokens self (delete token (self_tokens self h)) h.

(** What "expired at call time" means for a stored record. *)
Definition expired (r : TokenRecord) (now : Z) : bool :=
  match expireTime r with
  | Some e => (now >? e)%Z
  | None => false
  end.

End DictTokenStorage.

(** ** Clients *)

Module Clients.

(** Modelled from the spec: [txoauth2/clients.py] is not part of the sources
    at hand.  The enumeration of client-authentication kinds; its members are
    persisted as small integer tags, which the storage below takes as a
    parameter. *)
Inductive ClientAuthType : Type :=
  | PUBLIC
  | SECRET.

(** The client object as [imp.py] constructs and reads it:
    [Client(clientId, redirectUris, authType, authToken)]. *)
Record Client : Type := mkClient {
  id : string;
  redirectUris : list string;
  authType : ClientAuthType;
  authToken : pyobj
}.

Definition is_alpha (c : ascii) : bool :=
  let n := nat_of_ascii c in
  ((65 <=? n) && (n <=? 90) || (97 <=? n) && (n <=? 122))%nat.

Definition is_digit (c : ascii) : bool :=
  let n := nat_of_ascii c in ((48 <=? n) && (n <=? 57))%nat.

Definition scheme_char (c : ascii) : bool :=
  is_alpha c || is_digit c
  || bool_decide (c = "+"%char) || bool_decide (c = "-"%char)
  || bool_decide (c = "."%char).

Fixpoint scheme_rest (s : string) : bool :=
  match s with
  | EmptyString => false
  | String c s' =>
      if bool_decide (c = ":"%char) then true
      else scheme_char c && scheme_rest s'
  end.

(** Modelled from the spec: a redirect URI "must parse as absolute (have a
    scheme; any scheme, including custom/non-HTTP schemes, is accepted)". *)
Definition hasScheme (uri : string) : bool :=
  match uri with
  | EmptyString => false
  | String c s' => is_alpha c && scheme_rest s'
  end.

Fixpoint hasFragment (uri : string) : bool :=
  match uri with
  | EmptyString => false
  | String c s' => bool_decide (c = "#"%char) || hasFragment s'
  end.

(** Modelled from the spec: the invariant of one redirect URI -- absolute and
    without a fragment. *)
Definition validRedirectUri (uri : string) : bool :=
  hasScheme uri && negb (hasFragment uri).

(** Modelled from the spec: the constructor of [Client], which fails with a
    [ValueError] when a redirect URI is relative or carries a fragment.  The
    identifier and the URIs are text by their types here. *)
Definition __init__ (clientId : string) (redirectUris : list string)
    (authType : ClientAuthType) (authToken : pyobj) : result Client :=
  if forallb validRedirectUri redirectUris
  then Ok (mkClient clientId redirectUris authType authToken)
  else Raise ValueError.

(** A client that the constructor has accepted. *)
Definition valid (c : Client) : bool := forallb validRedirectUri (redirectUris c).

End Clients.

(** ** Python text operations used by the client storage *)

Module PyStr.

(** [str.isspace] on one character (code points below 256). *)
Definition isspace (c : ascii) : bool :=
  let n := nat_of_ascii c in
  ((9 <=? n) && (n <=? 13) || (28 <=? n) && (n <=? 32)
   || (n =? 133) || (n =? 160))%nat.

(** [s.split()]: the maximal runs of non-whitespace characters, in order.
    [word] is the run being read. *)
Fixpoint split_go (s : string) (word : string) : list string :=
  match s with
  | EmptyString => if bool_decide (word = "") then [] else [word]
  | String c s' =>
      if isspace c
      then (if bool_decide (word = "") then split_go s' ""
            else word :: split_go s' "")
      else split_go s' (word +:+ String c "")
  end.

Definition split (s : string) : list string := split_go s "".

(** [sep.join(l)] *)
Fixpoint join (sep : string) (l : list string) : string :=
  match l with
  | [] => ""
  | [x] => x
  | x :: rest => x +:+ sep +:+ join sep rest
  end.

(** No character of [s] is whitespace. *)
Fixpoint no_whitespace (s : string) : bool :=
  match s with
  | EmptyString => true
  | String c s' => negb (isspace c) && no_whitespace s'
  end.

(** [str.lower] on one character (code points below 256). *)
Definition lower_char (c : ascii) : ascii :=
  let n := nat_of_ascii c in
  if ((65 <=? n) && (n <=? 90)
      || (192 <=? n) && (n <=? 222) && negb (n =? 215))%nat
  then ascii_of_nat (n + 32) else c.

Fixpoint lower (s : string) : string :=
  match s with
  | EmptyString => EmptyString
  | String c s' => String (lower_char c) (lower s')
  end.

End PyStr.

(** ** RawConfigParser, as far as the client storage uses it *)

Module RawConfigParser.

Record t : Type := mk {
  _sections : gmap string (gmap string pyobj);
  _defaults : gmap string pyobj
}.

Definition default_section : string := "DEFAULT".

Definition optionxform (option : string) : string := PyStr.lower option.

Definition has_section (p : t) (section : string) : bool :=
  bool_decide (is_Some (_sections p !! section)).

Definition add_section (p : t) (section : string) : result t :=
  if bool_decide (section = default_section) then Raise ValueError
  else if has_section p section then Raise DuplicateSectionError
  else Ok {| _sections := <[section := ∅]> (_sections p);
             _defaults := _defaults p |}.

(** [set]: no conversion and no check of the value. *)
Definition set (p : t) (section option : string) (value : pyobj) : result t :=
  if bool_decide (section = "") || bool_decide (section = default_section)
  then Ok {| _sections := _sections p;
             _defaults := <[optionxform option := value]> (_defaults p) |}
  else match _sections p !! section with
       | None => Raise NoSectionError
       | Some sectdict =>
           Ok {| _sections :=
                   <[section := <[optionxform option := value]> sectdict]> (_sections p);
                 _defaults := _defaults p |}
       end.

(** [get]: the section's own value first, then the defaults; no
    interpolation. *)
Definition get (p : t) (section option : string) : result pyobj :=
  match
    match _sections p !! section with
    | Some sectiondict => Ok sectiondict
    | None =>
        if bool_decide (section = default_section) then Ok ∅
        else Raise NoSectionError
    end
  with
  | Raise e => Raise e
  | Ok sectiondict =>
      let option := optionxform option in
      match sectiondict !! option with
      | Some value => Ok value
      | None =>
          match _defaults p !! option with
          | Some value => Ok value
          | None => Raise NoOptionError
          end
      end
  end.

Section Conversions.

(** Python's [int] on text; the storage never inspects how it parses. *)
Variable int_of_text : string -> option Z.

(** [int(v)] *)
Definition int (v : pyobj) : result Z :=
  match v with
  | PyInt n => Ok n
  | PyStr s => match int_of_text s with Some n => Ok n | None => Raise ValueError end
  | PyNone | PyList _ => Raise TypeError
  end.

Definition getint (p : t) (section option : string) : result Z :=
  match get p section option with
  | Ok v => int v
  | Raise e => Raise e
  end.

End Conversions.

End RawConfigParser.

(** ** ConfigParserClientStorage *)

Module ConfigParserClientStorage.

Import Clients.

(** The storage object.  [file] is the parser state of which the file at
    [path] holds a complete dump written by this storage, if there is one. *)
Record Storage : Type := mkStorage {
  _configParser : RawConfigParser.t;
  path : string;
  file : option RawConfigParser.t
}.

Definition M := Eff.M Storage.

(** An operation of the parser that returns a new parser state or raises. *)
Definition update_parser (f : RawConfigParser.t -> result RawConfigParser.t) : M unit :=
  fun st =>
    match f (_configParser st) with
    | Ok p => (Ok tt, {| _configParser := p; path := path st; file := file st |})
    | Raise e => (Raise e, st)
    end.

(** An operation of the parser that only reads. *)
Definition read_parser {A} (f : RawConfigParser.t -> result A) : M A :=
  fun st => (f (_configParser st), st).

(** What the operating system makes of the lines 76 to 79 of [addClient]:
    every call succeeds; or [os.makedirs] or [open] raises, before the file
    is touched; or [open(self.path, 'w')] has succeeded, which empties the
    file, and the write raises. *)
Inductive os_outcome : Type :=
  | Written
  | FailsBeforeOpen (e : exn)
  | FailsAfterOpen (e : exn).

(** What these lines return or raise. *)
Definition os_result (os : os_outcome) : result unit :=
  match os with
  | Written => Ok tt
  | FailsBeforeOpen e | FailsAfterOpen e => Raise e
  end.

(** Lines 76 to 79 of [addClient]: create the directory and rewrite the whole
    file.  After a failure behind the [open] the file is empty or holds a
    part of the dump: a complete dump of no parser state. *)
Definition write_file (os : os_outcome) : M unit :=
  fun st =>
    match os with
    | Written =>
        (Ok tt, {| _configParser := _configParser st; path := path st;
                   file := Some (_configParser st) |})
    | FailsBeforeOpen e => (Raise e, st)
    | FailsAfterOpen e =>
        (Raise e, {| _configParser := _configParser st; path := path st;
                     file := None |})
    end.

Section WithPlatform.

(** The integer value of each member of [ClientAuthType]. *)
Variable value : ClientAuthType -> Z.

(** Python's [int] on text. *)
Variable int_of_text : string -> option Z.

(** [ClientAuthType(n)]: the member with that value. *)
Definition ClientAuthType_of_value (n : Z) : result ClientAuthType :=
  if bool_decide (value PUBLIC = n) then Ok PUBLIC
  else if bool_decide (value SECRET = n) then Ok SECRET
  else Raise ValueError.

Definition lift {A} (r : result A) : M A := fun st => (r, st).

(** [getClient] *)
Definition getClient (clientId : string) : M Client :=
  let sectionName := "client_" +:+ clientId in
  let! known := read_parser (fun p => Ok (RawConfigParser.has_section p sectionName)) in
  if negb known then Eff.raise KeyError
  else
    let! uris := read_parser (fun p => RawConfigParser.get p sectionName "redirect_uris") in
    let! redirectUris :=
      lift match uris with
           | PyStr s => Ok (PyStr.split s)
           | _ => Raise AttributeError
           end in
    let! n := read_parser (fun p =>
                RawConfigParser.getint int_of_text p sectionName "auth_type") in
    let! authType := lift (ClientAuthType_of_value n) in
    let! authToken := read_parser (fun p => RawConfigParser.get p sectionName "auth_token") in
    lift (Clients.__init__ clientId redirectUris authType authToken).

(** [addClient] *)
Definition addClient (client : Client) (os : os_outcome) : M unit :=
  let sectionName := "client_" +:+ id client in
  let! known := read_parser (fun p => Ok (RawConfigParser.has_section p sectionName)) in
  let! _ := (if negb known
             then update_parser (fun p => RawConfigParser.add_section p sectionName)
             else Eff.ret tt) in
  let! _ := update_parser (fun p =>
              RawConfigParser.set p sectionName "auth_type" (PyInt (value (authType client)))) in
  let! _ := update_parser (fun p =>
              RawConfigParser.set p sectionName "auth_token" (authToken client)) in
  let! _ := update_parser (fun p =>
              RawConfigParser.set p sectionName "redirect_uris"
                (PyStr (PyStr.join " " (redirectUris client)))) in
  write_file os.

End WithPlatform.

End ConfigParserClientStorage.

(** ** UUIDTokenFactory *)

Module UUIDTokenFactory.

(** [os.urandom(n)]: the next [n] bytes of the operating system's entropy
    source. *)
Definition os_urandom (entropy : nat -> Byte.byte) (n : nat) : list Byte.byte :=
  map entropy (seq 0 n).

(** [int.from_bytes(bs, 'big')] *)
Definition int_from_bytes (bs : list Byte.byte) : Z :=
  fold_left (fun acc b => acc * 256 + Z.of_N (Byte.to_N b)) bs 0.

(** [UUID(bytes=bs, version=version)]: the 128-bit integer the object holds. *)
Definition UUID (bs : list Byte.byte) (version : Z) : result Z :=
  if negb (length bs =? 16)%nat then Raise ValueError
  else
    let int := int_from_bytes bs in
    let int := Z.land int (Z.lnot (Z.shiftl 0xc000 48)) in
    let int := Z.lor int (Z.shiftl 0x8000 48) in
    let int := Z.land int (Z.lnot (Z.shiftl 0xf000 64)) in
    let int := Z.lor int (Z.shiftl version 76) in
    Ok int.

(** [uuid4()] *)
Definition uuid4 (entropy : nat -> Byte.byte) : result Z :=
  UUID (os_urandom entropy 16) 4.

Definition hexdigits : list ascii := list_ascii_of_string "0123456789abcdef".

Definition hexdigit (d : Z) : ascii := nth (Z.to_nat d) hexdigits "0"%char.

Fixpoint format_x_go (fuel : nat) (v : Z) (acc : list ascii) : list ascii :=
  match fuel with
  | O => acc
  | S fuel' =>
      let acc' := hexdigit (v mod 16) :: acc in
      if (v / 16 =? 0)%Z then acc' else format_x_go fuel' (v / 16) acc'
  end.

(** ['%x' % v] for [0 <= v]: the digits, most significant first. *)
Definition format_x (v : Z) : list ascii :=
  format_x_go (S (Z.to_nat (Z.log2 v))) v [].

(** ['%032x' % v]: padded with zeros on the left to 32 characters. *)
Definition format_032x (v : Z) : list ascii :=
  let digits := format_x v in
  repeat "0"%char (32 - length digits) ++ digits.

(** [str(u)] for a UUID holding [int]. *)
Definition UUID_str (int : Z) : string :=
  let hex := format_032x int in
  string_of_list_ascii
    (take 8 hex ++ "-"%char :: take 4 (drop 8 hex) ++ "-"%char
       :: take 4 (drop 12 hex) ++ "-"%char :: take 4 (drop 16 hex)
       ++ "-"%char :: drop 20 hex).

(** [generateToken]: none of the four arguments occurs in the body. *)
Definition generateToken {Client : Type} (lifetime : pyobj) (client : Client)
    (scope : pyobj) (additionalData : pyobj) (entropy : nat -> Byte.byte)
    : result string :=
  match uuid4 entropy with
  | Ok u => Ok (UUID_str u)
  | Raise e => Raise e
  end.

(** The canonical text form of a UUID: 36 characters, a hyphen at the
    positions 8, 13, 18 and 23, a lower-case hexadecimal digit elsewhere. *)
Definition is_hexdigit (c : ascii) : bool :=
  bool_decide (c ∈ hexdigits).

Definition canonical_at (i : nat) (c : ascii) : bool :=
  if ((i =? 8) || (i =? 13) || (i =? 18) || (i =? 23))%nat
  then bool_decide (c = "-"%char)
  else is_hexdigit c.

Fixpoint canonical_from (i : nat) (l : list ascii) : bool :=
  match l with
  | [] => true
  | c :: l' => canonical_at i c && canonical_from (S i) l'
  end.

Definition canonical_form (s : string) : bool :=
  let l := list_ascii_of_string s in
  (length l =? 36)%nat && canonical_from 0 l.

End UUIDTokenFactory.

(** ** The token endpoint *)

Module TokenResource.

(** Modelled from the spec: [txoauth2/token.py] is not part of the sources at
    hand; what follows is the token endpoint as sections 3, 4.1, 4.2, 4.8 and
    4.9 of the specification describe it. *)

(** Modelled from the spec: the grant-type enumeration and the wire text of
    each member. *)
Inductive GrantTypes : Type :=
  | AUTHORIZATION_CODE
  | IMPLICIT
  | PASSWORD
  | CLIENT_CREDENTIALS
  | REFRESH_TOKEN.

Definition GrantTypes_value (g : GrantTypes) : string :=
  match g with
  | AUTHORIZATION_CODE => "authorization_code"
  | IMPLICIT => "implicit"
  | PASSWORD => "password"
  | CLIENT_CREDENTIALS => "client_credentials"
  | REFRESH_TOKEN => "refresh_token"
  end.

(** Modelled from the spec: the error kinds of the request acceptance
    pipeline; a missing, repeated or undecodable parameter is named, an
    unsupported grant type carries the offending value. *)
Inductive OAuth2Error : Type :=
  | InsecureConnectionError
  | MalformedRequestError
  | MissingParameterError (name : string)
  | MultipleParameterError (name : string)
  | InvalidParameterError (name : string)
  | UnsupportedGrantTypeError (grantType : string).

Section ValidTokens.

(** The "small set of URL-safe punctuation" of the valid-token alphabet. *)
Variable punctuation : list ascii.

(** Modelled from the spec: the valid-token character set, "alphanumerics plus
    a small set of URL-safe punctuation". *)
Definition VALID_TOKEN_CHARS : list ascii :=
  list_ascii_of_string "0123456789abcdefghijklmnopqrstuvwxyzABCDEFGHIJKLMNOPQRSTUVWXYZ"
  ++ punctuation.

(** Modelled from the spec: [isValidToken(candidate)] is "true iff candidate
    is non-empty and every character belongs to the alphabet". *)
Definition isValidToken (token : string) : bool :=
  negb (bool_decide (token = ""))
  && forallb (fun c => bool_decide (c ∈ VALID_TOKEN_CHARS)) (list_ascii_of_string token).

End ValidTokens.

(** An entry of the [grantTypes] allow-list: a member of the enumeration or
    its text. *)
Inductive GrantTypeArg : Type :=
  | Member (g : GrantTypes)
  | Text (s : string).

Definition grantTypeText (a : GrantTypeArg) : string :=
  match a with
  | Member g => GrantTypes_value g
  | Text s => s
  end.

(** Modelled from the spec: the grant types an instance accepts -- the
    allow-list if one is given, by default all grant types; the implicit
    grant "is never valid at the token endpoint -- if included in a configured
    allow-list it is silently dropped". *)
Definition enabledGrantTypes (grantTypes : option (list GrantTypeArg)) : list string :=
  let given :=
    match grantTypes with
    | Some l => map grantTypeText l
    | None => map GrantTypes_value
                [AUTHORIZATION_CODE; IMPLICIT; PASSWORD; CLIENT_CREDENTIALS; REFRESH_TOKEN]
    end in
  filter (fun g => g ≠ GrantTypes_value IMPLICIT) given.

Section Resource.

(** The collaborators are opaque to the construction. *)
Context {TokenFactory PersistentStorage TokenStorage ClientStorage PasswordManager : Type}.

Record t : Type := mk {
  tokenFactory : TokenFactory;
  persistentStorage : PersistentStorage;
  refreshTokenStorage : TokenStorage;
  authTokenStorage : TokenStorage;
  clientStorage : ClientStorage;
  passwordManager : option PasswordManager;
  acceptedGrantTypes : list string;
  authTokenLifeTime : option Z;
  allowInsecureRequestDebug : bool
}.

(** Modelled from the spec: the constructor.  "A Token Endpoint Resource
    configured to accept the password grant type must be given [a Password
    Manager] at construction; omitting it while enabling the password grant
    is a configuration error (construction fails immediately)". *)
Definition __init__ (tokenFactory : TokenFactory) (persistentStorage : PersistentStorage)
    (refreshTokenStorage authTokenStorage : TokenStorage) (clientStorage : ClientStorage)
    (passwordManager : option PasswordManager)
    (grantTypes : option (list GrantTypeArg))
    (authTokenLifeTime : option Z) (allowInsecureRequestDebug : bool) : result t :=
  let accepted := enabledGrantTypes grantTypes in
  if bool_decide (GrantTypes_value PASSWORD ∈ accepted)
     && match passwordManager with None => true | Some _ => false end
  then Raise ValueError
  else Ok (mk tokenFactory persistentStorage refreshTokenStorage authTokenStorage
              clientStorage passwordManager accepted authTokenLifeTime
              allowInsecureRequestDebug).

(** A request as the endpoint sees it: the transport flag, the declared
    content type, and the parameters of the query string and of the body,
    each in order of appearance. *)
Record Request : Type := mkRequest {
  isSecure : bool;
  contentType : option string;
  query : list (string * list Byte.byte);
  body : list (string * list Byte.byte)
}.

(** Modelled from the spec: [request.args], "the combined query and body
    parameters" -- for each name the values given for it, query first. *)
Definition args (request : Request) : gmap string (list (list Byte.byte)) :=
  fold_left (fun m kv => <[kv.1 := default [] (m !! kv.1) ++ [kv.2]]> m)
            (query request ++ body request) ∅.

(** The text decoder applied to a parameter value; [None] when the bytes are
    not valid text. *)
Variable decode : list Byte.byte -> option string.

(** Modelled from the spec: step 4 of the request acceptance pipeline.  The
    outcome is the error to answer with, or the grant type to dispatch on. *)
Definition checkGrantType (self : t) (request : Request) : OAuth2Error + string :=
  match args request !! "grant_type" with
  | None => inl (MissingParameterError "grant_type")
  | Some values =>
      match values with
      | [value] =>
          match decode value with
          | None => inl (InvalidParameterError "grant_type")
          | Some grantType =>
              if bool_decide (grantType ∈ acceptedGrantTypes self)
              then inr grantType
              else inl (UnsupportedGrantTypeError grantType)
          end
      | _ => inl (MultipleParameterError "grant_type")
      end
  end.

(** Modelled from the spec: steps 2 to 4 of the request acceptance pipeline
    of [render_POST], each of which "short-circuits to the stated error". *)
Definition acceptRequest (self : t) (request : Request) : OAuth2Error + string :=
  if negb (allowInsecureRequestDebug self) && negb (isSecure request)
  then inl InsecureConnectionError
  else if negb (bool_decide
                  (contentType request = Some "application/x-www-form-urlencoded"))
  then inl MalformedRequestError
  else checkGrantType self request.

(** The values given for [name], in the query and then in the body. *)
Definition occurrences (name : string) (request : Request) : list (list Byte.byte) :=
  map snd (filter (fun kv => kv.1 = name) (query request ++ body request)).

End Resource.

(** Modelled from the spec: the "small set of URL-safe punctuation" of the
    valid-token alphabet (section 4.1), taken to be the marks of the token
    syntax of bearer credentials.  Section 4.7 requires the tokens of the
    reference factory, which are hyphenated, to be valid, and the test of
    that factory asserts it: the hyphen is one of the marks. *)
Definition URL_SAFE_PUNCTUATION : list ascii := list_ascii_of_string "-._~+/".

End TokenResource.

(** * The canonical text form of an identifier, read back *)

Module RFC4122.

(** The value of a lower-case hexadecimal digit, from its character code. *)
Definition hex_value (c : ascii) : option Z :=
  let n := Z.of_nat (nat_of_ascii c) in
  if (48 <=? n) && (n <=? 57) then Some (n - 48)
  else if (97 <=? n) && (n <=? 102) then Some (n - 87)
  else None.

(** A run of hexadecimal digits as a numeral, continuing from [acc]. *)
Fixpoint read_hex (l : list ascii) (acc : Z) : option Z :=
  match l with
  | [] => Some acc
  | c :: l' =>
      match hex_value c with
      | Some d => read_hex l' (16 * acc + d)
      | None => None
      end
  end.

(** The reader of the canonical form, from the character at index [i] on:
    a hyphen is required at the indices 8, 13, 18 and 23, a lower-case
    hexadecimal digit everywhere else, and the text ends at index 36. *)
Fixpoint read_uuid (i : nat) (l : list ascii) (acc : Z) : option Z :=
  match l with
  | [] => if (i =? 36)%nat then Some acc else None
  | c :: l' =>
      if ((i =? 8) || (i =? 13) || (i =? 18) || (i =? 23))%nat
      then (if bool_decide (c = "-"%char) then read_uuid (S i) l' acc else None)
      else match hex_value c with
           | Some d => read_uuid (S i) l' (16 * acc + d)
           | None => None
           end
  end.

(** The 128-bit identifier a text in canonical form stands for; [None] for
    any other text. *)
Definition uuid_of_text (s : string) : option Z :=
  read_uuid 0 (list_ascii_of_string s) 0.

(** Bit [n] of a version-4 identifier of the standard variant whose random
    source has the bit [b] there: the bits 63 and 62 are 1 and 0, the bits 79
    to 76 are 0, 1, 0, 0, and every other bit is the random one. *)
Definition version4_bit (n : Z) (b : bool) : bool :=
  if n =? 63 then true
  else if n =? 62 then false
  else if n =? 78 then true
  else if (n =? 79) || (n =? 77) || (n =? 76) then false
  else b.

End RFC4122.

(** * Fixtures of the unit tests *)

Module Fixtures.

(** The client of the token-resource tests. *)
Definition test_client : Clients.Client :=
  Clients.mkClient "clientId" ["https://return.nonexistent"] Clients.SECRET
    (PyStr "secret").

(** [setUpClass] of the token-resource tests: two storage objects, the
    first for access tokens and the second for refresh tokens. *)
Definition two_storages
    : DictTokenStorage.Instance * DictTokenStorage.Instance * DictTokenStorage.Heap :=
  let (auth, h1) := DictTokenStorage.new DictTokenStorage.initial in
  let (refresh, h2) := DictTokenStorage.new h1 in
  (auth, refresh, h2).

Definition _AUTH_TOKEN_STORAGE : DictTokenStorage.Instance := two_storages.1.1.
Definition _REFRESH_TOKEN_STORAGE : DictTokenStorage.Instance := two_storages.1.2.
Definition heap_after_setup : DictTokenStorage.Heap := two_storages.2.

Definition _VALID_SCOPE : pyobj := PyList [PyStr "All"; PyStr "scope"].

(** The heap after [_REFRESH_TOKEN_STORAGE.store('refreshToken', client, scope)]
    at the time [now]. *)
Definition heap_after_store (now : Z) : DictTokenStorage.Heap :=
  (DictTokenStorage.store _REFRESH_TOKEN_STORAGE (PyStr "refreshToken") test_client
     _VALID_SCOPE PyNone None now heap_after_setup).2.

(** A heap whose table holds one record that expires at the time 100. *)
Definition heap_with_expiring_token : DictTokenStorage.Heap :=
  (DictTokenStorage.store _AUTH_TOKEN_STORAGE (PyStr "token") test_client
     _VALID_SCOPE (PyStr "data") (Some 100) 0 heap_after_setup).2.

(** The client of the client-storage tests. *)
Definition new_client : Clients.Client :=
  Clients.mkClient "newClientId"
    ["https://return.nonexistent"; "https://return2.nonexistent"]
    Clients.SECRET (PyStr "newClientSecret").

(** A client with one redirect URI, which has a space in its path. *)
Definition spaced_client : Clients.Client :=
  Clients.mkClient "spaced"
    ["https://a.nonexistent/x https://b.nonexistent/y"]
    Clients.PUBLIC PyNone.

(** Integer tags for the two authentication kinds. *)
Definition auth_type_value (a : Clients.ClientAuthType) : Z :=
  match a with
  | Clients.PUBLIC => 0
  | Clients.SECRET => 1
  end.

(** A reader of unsigned decimal numerals. *)
Fixpoint decimal_go (s : string) (acc : Z) : option Z :=
  match s with
  | EmptyString => Some acc
  | String c s' =>
      if Clients.is_digit c
      then decimal_go s' (10 * acc + (Z.of_nat (nat_of_ascii c) - 48))
      else None
  end.

Definition decimal (s : string) : option Z :=
  match s with
  | EmptyString => None
  | _ => decimal_go s 0
  end.

(** A storage whose file did not exist when it was constructed. *)
Definition empty_storage : ConfigParserClientStorage.Storage :=
  ConfigParserClientStorage.mkStorage (RawConfigParser.mk ∅ ∅) "clients/clients.ini" None.

(** An entropy source that yields the byte [0xff] for ever, and one that
    counts. *)
Definition entropy_ff : nat -> Byte.byte := fun _ => Byte.xff.

Definition entropy_count : nat -> Byte.byte :=
  fun i => default Byte.x00 (Byte.of_nat (17 * i)).

(** The punctuation of the [b64token] syntax of bearer tokens. *)
Definition b64token_punctuation : list ascii := list_ascii_of_string "-._~+/".

(** A text decoder for the ASCII subset: a byte above 127 is not text. *)
Definition decode_ascii (bs : list Byte.byte) : option string :=
  if forallb (fun b => (Byte.to_N b <? 128)%N) bs
  then Some (String.string_of_list_byte bs)
  else None.

Definition b (s : string) : list Byte.byte := String.list_byte_of_string s.

(** The token resource of the tests: every collaborator supplied, default
    grant types. *)
Definition _TOKEN_RESOURCE : @TokenResource.t unit unit unit unit unit :=
  TokenResource.mk tt tt tt tt tt (Some tt) (TokenResource.enabledGrantTypes None)
    (Some 3600) false.

Definition form : option string := Some "application/x-www-form-urlencoded".

(** [testDuplicatedGrantType], second request: [grant_type=1] in the query, a
    valid [grant_type] in the body. *)
Definition duplicated_request : TokenResource.Request :=
  TokenResource.mkRequest true form
    [("grant_type", b "1")]
    [("grant_type", b "refresh_token"); ("refresh_token", b "refreshToken")].

(** [testNoGrantType] *)
Definition no_grant_type_request : TokenResource.Request :=
  TokenResource.mkRequest true form [] [].

(** [testInvalidGrantType]: the value ends in two bytes [0xff]. *)
Definition invalid_request : TokenResource.Request :=
  TokenResource.mkRequest true form []
    [("grant_type", b "grantType" ++ [Byte.xff; Byte.xff])].

(** [testUnsupportedGrantType] *)
Definition unsupported_request : TokenResource.Request :=
  TokenResource.mkRequest true form []
    [("grant_type", b "extendedFunctionalityGrantType")].

(** A storage read from a file in which the section of the client [broken]
    has only the option [auth_type]. *)
Definition incomplete_storage : ConfigParserClientStorage.Storage :=
  ConfigParserClientStorage.mkStorage
    (RawConfigParser.mk {[ "client_broken" := {[ "auth_type" := PyStr "1" ]} ]} ∅)
    "clients/clients.ini" None.

(** A client object whose redirect URI is relative. *)
Definition relative_client : Clients.Client :=
  Clients.mkClient "relative" ["/relative"] Clients.SECRET (PyStr "secret").

End Fixtures.

(** * Notions used to state further properties *)

Module Notions.

(** The list that [store] keeps for its [scope] argument. *)
Definition scope_list (scope : pyobj) : list pyobj :=
  match scope with
  | PyList xs => xs
  | _ => [scope]
  end.

(** A record with this expiry is served at the time [now]: it has no expiry,
    or [now] is not after it. *)
Definition live (expireTime : option Z) (now : Z) : bool :=
  match expireTime with
  | Some e => now <=? e
  | None => true
  end.

(** [store] at the time [now] keeps a record with this expiry: it has no
    expiry, or the expiry is after [now]. *)
Definition storable (expireTime : option Z) (now : Z) : bool :=
  match expireTime with
  | Some e => now <? e
  | None => true
  end.

(** The heap a read of [token] at the time [now] leaves behind: the record is
    deleted if it has expired, and nothing else happens. *)
Definition after_read (self : DictTokenStorage.Instance) (token : string) (now : Z)
    (h : DictTokenStorage.Heap) : DictTokenStorage.Heap :=
  match DictTokenStorage.cls_tokens h !! token with
  | Some r =>
      if DictTokenStorage.expired r now
      then DictTokenStorage.purged self token h
      else h
  | None => h
  end.

(** The options of a client's section once [addClient] has run, [d] being
    the options the section had before. *)
Definition client_section (value : Clients.ClientAuthType -> Z) (c : Clients.Client)
    (d : gmap string pyobj) : gmap string pyobj :=
  <["redirect_uris" := PyStr (PyStr.join " " (Clients.redirectUris c))]>
    (<["auth_token" := Clients.authToken c]>
       (<["auth_type" := PyInt (value (Clients.authType c))]> d)).

(** The parser once [addClient] has run. *)
Definition parser_with_client (value : Clients.ClientAuthType -> Z)
    (c : Clients.Client) (p : RawConfigParser.t) : RawConfigParser.t :=
  let sectionName := "client_" +:+ Clients.id c in
  RawConfigParser.mk
    (<[sectionName :=
         client_section value c
           (default ∅ (RawConfigParser._sections p !! sectionName))]>
       (RawConfigParser._sections p))
    (RawConfigParser._defaults p).

(** The [n] low hexadecimal digits of [v], most significant first. *)
Fixpoint fixed_hex (n : nat) (v : Z) : list ascii :=
  match n with
  | O => []
  | S n' => fixed_hex n' (v / 16) ++ [UUIDTokenFactory.hexdigit (v mod 16)]
  end.

(** The value of a lower-case hexadecimal digit. *)
Definition hexvalue (c : ascii) : Z :=
  let n := Z.of_nat (nat_of_ascii c) in
  if n <? 58 then n - 48 else n - 87.

End Notions.

(** * Properties *)

(** ** Python values *)

Lemma pyobj_nested_ind (P : pyobj -> Prop) :
  P PyNone ->
  (forall s, P (PyStr s)) ->
  (forall n, P (PyInt n)) ->
  (forall xs, Forall P xs -> P (PyList xs)) ->
  forall v, P v.
Proof.
  intros HNone HStr HInt HList.
  fix IH 1.
  intros [| s | n | xs]; [exact HNone | apply HStr | apply HInt |].
  apply HList.
  induction xs as [| x xs' IHxs]; constructor; [apply IH | exact IHxs].
Qed.

Lemma py_eqb_eq (a b : pyobj) : py_eqb a b = true <-> a = b.
Proof.
  revert b. induction a as [| s | n | xs IHxs] using pyobj_nested_ind;
    intros [| t | m | ys]; simpl; try (split; [discriminate | congruence]);
    try tauto.
  - rewrite bool_decide_eq_true. split; congruence.
  - rewrite bool_decide_eq_true. split; congruence.
  - revert ys. induction IHxs as [| x xs' Hx _ IH]; intros [| y ys'];
      try (split; [discriminate | congruence]); try tauto.
    rewrite andb_true_iff, Hx, IH. split.
    + intros [-> Heq]. congruence.
    + intros Heq. injection Heq as -> ->. tauto.
Qed.

Lemma py_in_elem_of (x : pyobj) (l : list pyobj) : py_in x l = true <-> x ∈ l.
Proof.
  unfold py_in. rewrite existsb_exists. split.
  - intros (y & Hin & Heq). apply py_eqb_eq in Heq as ->.
    by apply list_elem_of_In.
  - intros Hin. exists x. split; [by apply list_elem_of_In | by apply py_eqb_eq].
Qed.

(** ** DictTokenStorage *)

Section DictTokenStorageProperties.

Import DictTokenStorage.

Implicit Types (self : Instance) (token : string) (now : Z) (h : Heap)
  (r : TokenRecord).

Lemma set_self_tokens_id self h : set_self_tokens self (self_tokens self h) h = h.
Proof. by destruct h. Qed.

Lemma getitem_Some self token h r :
  cls_tokens h !! token = Some r -> getitem self token h = (Ok r, h).
Proof. intros H. unfold getitem, self_tokens. by rewrite H. Qed.

Lemma getitem_None self token h :
  cls_tokens h !! token = None -> getitem self token h = (Raise KeyError, h).
Proof. intros H. unfold getitem, self_tokens. by rewrite H. Qed.

Lemma _checkExpire_absent self token now h :
  cls_tokens h !! token = None ->
  _checkExpire self token now h = (Raise KeyError, h).
Proof.
  intros H. unfold _checkExpire, Eff.bind. by rewrite (getitem_None _ _ _ H).
Qed.

Lemma _checkExpire_present self token now h r :
  cls_tokens h !! token = Some r ->
  _checkExpire self token now h =
    if expired r now then (Ok true, purged self token h) else (Ok false, h).
Proof.
  intros H. unfold _checkExpire, Eff.bind, expired.
  rewrite (getitem_Some _ _ _ _ H).
  destruct (expireTime r) as [e |]; [| done].
  by destruct (now >? e).
Qed.

Lemma purged_lookup self token h : cls_tokens (purged self token h) !! token = None.
Proof. unfold purged, set_self_tokens, self_tokens. simpl. apply lookup_delete_eq. Qed.

Lemma hasAccess_loop_present self token h r (scope : list pyobj) :
  cls_tokens h !! token = Some r ->
  hasAccess_loop self token scope h =
    (Ok (forallb (fun item => py_in item (DictTokenStorage.scope r)) scope), h).
Proof.
  intros H. induction scope as [| item rest IH]; [done |].
  simpl. unfold Eff.bind. rewrite (getitem_Some _ _ _ _ H).
  destruct (py_in item (DictTokenStorage.scope r)); simpl; [exact IH | done].
Qed.

Lemma contains_eval self token now h :
  contains self token now h =
    match cls_tokens h !! token with
    | None => (Ok false, h)
    | Some r =>
        if expired r now then (Ok false, purged self token h) else (Ok true, h)
    end.
Proof.
  unfold contains, self_tokens.
  destruct (cls_tokens h !! token) as [r |] eqn:H; [| done].
  unfold Eff.bind. rewrite (_checkExpire_present _ _ _ _ _ H).
  by destruct (expired r now).
Qed.

Lemma hasAccess_eval self token (scope : list pyobj) now h :
  hasAccess self token scope now h =
    match cls_tokens h !! token with
    | None => (Raise KeyError, h)
    | Some r =>
        if expired r now then (Raise KeyError, purged self token h)
        else (Ok (forallb (fun item => py_in item (DictTokenStorage.scope r)) scope), h)
    end.
Proof.
  unfold hasAccess, Eff.bind.
  destruct (cls_tokens h !! token) as [r |] eqn:H.
  - rewrite (_checkExpire_present _ _ _ _ _ H).
    destruct (expired r now); [done |].
    apply (hasAccess_loop_present _ _ _ _ _ H).
  - by rewrite (_checkExpire_absent _ _ _ _ H).
Qed.

Lemma getTokenData_eval self token now h :
  getTokenData self token now h =
    match cls_tokens h !! token with
    | None => (Raise KeyError, h)
    | Some r =>
        if expired r now then (Raise KeyError, purged self token h)
        else (Ok (DictTokenStorage.scope r, data r), h)
    end.
Proof.
  unfold getTokenData, Eff.bind.
  destruct (cls_tokens h !! token) as [r |] eqn:H.
  - rewrite (_checkExpire_present _ _ _ _ _ H).
    destruct (expired r now).
    + simpl. rewrite (getitem_None _ _ _ (purged_lookup self token h)).
      reflexivity.
    + simpl. rewrite (getitem_Some _ _ _ _ H). simpl.
      rewrite (getitem_Some _ _ _ _ H). reflexivity.
  - by rewrite (_checkExpire_absent _ _ _ _ H).
Qed.

End DictTokenStorageProperties.

Section DictTokenStorageClaims.

Import DictTokenStorage.

Implicit Types (self : Instance) (token : string) (now : Z) (h : Heap)
  (r : TokenRecord).

(** What a [store] without expiry on one instance does to the table every
    instance reads. *)
Lemma store_then_contains_any_instance {Client : Type} (a b : Instance) token
    (client : Client) (scope additionalData : pyobj) now now' h :
  let h' := (store a (PyStr token) client scope additionalData None now h).2 in
  contains b token now' h' = (Ok true, h').
Proof.
  simpl. rewrite contains_eval. unfold self_tokens. simpl.
  by rewrite lookup_insert_eq.
Qed.

(** C1, as the code has it -- the instances are views of one table, the dict
    kept on the class: for any two instances [a] and [b] and every token,
    after [a.store(token, client, scope)] without an expiry, [b.contains(token)]
    returns true at any time, whatever the table held before; and [contains],
    [hasAccess], [getTokenData] and [store] do the same to the heap and
    return the same whichever instance they are called on. *)
Theorem DictTokenStorage_one_table_for_all_instances {Client : Type}
    (a b : Instance) token (client : Client) (scope additionalData : pyobj)
    now now' h :
  (let h' := (store a (PyStr token) client scope additionalData None now h).2 in
   contains b token now' h' = (Ok true, h'))
  /\ (forall (tok : string) (request : list pyobj) (t : Z) (h0 : Heap),
        contains a tok t h0 = contains b tok t h0
        /\ hasAccess a tok request t h0 = hasAccess b tok request t h0
        /\ getTokenData a tok t h0 = getTokenData b tok t h0)
  /\ (forall (tok scope0 data0 : pyobj) (client0 : Client) (e : option Z) (t : Z)
             (h0 : Heap),
        store a tok client0 scope0 data0 e t h0 = store b tok client0 scope0 data0 e t h0).
Proof.
  split; [| split].
  - cbn zeta. rewrite contains_eval. cbn. by rewrite lookup_insert_eq.
  - intros tok request t h0.
    by rewrite !contains_eval, !hasAccess_eval, !getTokenData_eval.
  - intros tok scope0 data0 client0 e t h0. reflexivity.
Qed.

(** C1, as the claim has it, fails: after the set-up of the token-resource
    tests the two storage objects are distinct and the access-token storage
    holds no record for ['refreshToken']; once that token has been stored
    through the refresh-token storage, [contains] on the access-token
    storage answers true for it, where the claim asks for false. *)
Theorem DictTokenStorage_instances_share_table :
  Fixtures._AUTH_TOKEN_STORAGE <> Fixtures._REFRESH_TOKEN_STORAGE
  /\ contains Fixtures._AUTH_TOKEN_STORAGE "refreshToken" 0 Fixtures.heap_after_setup
     = (Ok false, Fixtures.heap_after_setup)
  /\ contains Fixtures._AUTH_TOKEN_STORAGE "refreshToken" 0 (Fixtures.heap_after_store 0)
     = (Ok true, Fixtures.heap_after_store 0).
Proof.
  split; [| split].
  - vm_compute. discriminate.
  - reflexivity.
  - apply (store_then_contains_any_instance
             Fixtures._REFRESH_TOKEN_STORAGE Fixtures._AUTH_TOKEN_STORAGE).
Qed.

(** C3 -- [store] with a string token and an [expireTime] that is not after
    the time of the call (in the past, or the very moment of the call)
    returns normally and leaves the heap as it was; if the table held no
    record for the token before, [contains] is false on the resulting heap,
    whenever and on whichever instance it is asked. *)
Theorem DictTokenStorage_store_expired_is_noop {Client : Type} self token
    (client : Client) (scope additionalData : pyobj) (expireTime now : Z) h :
  expireTime <= now ->
  let outcome := store self (PyStr token) client scope additionalData
                   (Some expireTime) now h in
  outcome = (Ok tt, h)
  /\ (cls_tokens h !! token = None ->
      forall self' now', contains self' token now' outcome.2 = (Ok false, outcome.2)).
Proof.
  intros Hpast. simpl.
  assert (Hleb : (expireTime <=? now) = true) by (apply Z.leb_le; lia).
  rewrite Hleb. split; [reflexivity |].
  intros Habsent self' now'. simpl.
  rewrite contains_eval. by rewrite Habsent.
Qed.

Lemma DictTokenStorage_store_expired_is_noop_witness :
  50 <= 60
  /\ store Fixtures._AUTH_TOKEN_STORAGE (PyStr "expired") Fixtures.test_client
       Fixtures._VALID_SCOPE PyNone (Some 50) 60 Fixtures.heap_after_setup
     = (Ok tt, Fixtures.heap_after_setup)
  /\ contains Fixtures._AUTH_TOKEN_STORAGE "expired" 60 Fixtures.heap_after_setup
     = (Ok false, Fixtures.heap_after_setup).
Proof.
  assert (Hpast : 50 <= 60) by lia.
  destruct (DictTokenStorage_store_expired_is_noop Fixtures._AUTH_TOKEN_STORAGE
              "expired" Fixtures.test_client Fixtures._VALID_SCOPE PyNone 50 60
              Fixtures.heap_after_setup Hpast) as [Hstore Hcontains].
  split; [exact Hpast | split; [exact Hstore |]].
  exact (Hcontains eq_refl Fixtures._AUTH_TOKEN_STORAGE 60).
Defined.

(** C4 -- [contains] never raises; it answers true exactly when the table
    holds a record for the token that has not expired at the time of the
    call; for an absent token it answers false and changes nothing; an
    expired record is deleted from the table by the check; an unexpired one
    is left alone. *)
Theorem DictTokenStorage_contains_spec self token now h :
  exists (b : bool) (h' : Heap),
    contains self token now h = (Ok b, h')
    /\ (b = true <-> exists r, cls_tokens h !! token = Some r /\ expired r now = false)
    /\ (cls_tokens h !! token = None -> b = false /\ h' = h)
    /\ (forall r, cls_tokens h !! token = Some r -> expired r now = true ->
        cls_tokens h' = delete token (cls_tokens h))
    /\ (forall r, cls_tokens h !! token = Some r -> expired r now = false -> h' = h).
Proof.
  rewrite contains_eval.
  destruct (cls_tokens h !! token) as [r |] eqn:Hlook.
  - destruct (expired r now) eqn:Hexp.
    + exists false, (purged self token h). repeat split; try done.
      * intros (r' & [= <-] & Hr'). congruence.
      * intros r' [= <-]. congruence.
    + exists true, h. repeat split; try done.
      * intros _. by exists r.
      * intros r' [= <-]. congruence.
  - exists false, h. repeat split; try done.
    intros (r' & Hr' & _). discriminate.
Qed.

(** C5 -- [hasAccess] raises [KeyError] exactly when the record is absent or
    has expired at the time of the call; for a present, unexpired record it
    returns a boolean, leaves the heap alone, and the boolean is true exactly
    when every item of the requested scope occurs in the stored scope. *)
Theorem DictTokenStorage_hasAccess_spec self token (scope : list pyobj) now h :
  ((hasAccess self token scope now h).1 = Raise KeyError <->
     cls_tokens h !! token = None
     \/ exists r, cls_tokens h !! token = Some r /\ expired r now = true)
  /\ (forall r, cls_tokens h !! token = Some r -> expired r now = false ->
      exists b : bool,
        hasAccess self token scope now h = (Ok b, h)
        /\ (b = true <->
            forall item, item ∈ scope -> item ∈ DictTokenStorage.scope r)).
Proof.
  rewrite hasAccess_eval.
  destruct (cls_tokens h !! token) as [r |] eqn:Hlook.
  - destruct (expired r now) eqn:Hexp.
    + split.
      * split; [intros _; right; by exists r | done].
      * intros r' [= <-]. congruence.
    + split.
      * split; [discriminate |].
        intros [Habs | (r' & [= <-] & Hr')]; congruence.
      * intros r' [= <-] _. eexists. split; [reflexivity |].
        rewrite forallb_forall. split.
        -- intros Hall item Hin. apply py_in_elem_of, Hall.
           by apply list_elem_of_In.
        -- intros Hall item Hin. apply py_in_elem_of, Hall.
           by apply list_elem_of_In.
  - split.
    + split; [intros _; by left | done].
    + intros r [=].
Qed.

(** C9 -- [getTokenData] raises [KeyError] for an absent record and for an
    expired one, which it deletes from the table on the way; it returns the
    stored scope and data for a present, unexpired record; whatever it
    returns is therefore the data of a record that has not expired. *)
Theorem DictTokenStorage_getTokenData_spec self token now h :
  (cls_tokens h !! token = None ->
     getTokenData self token now h = (Raise KeyError, h))
  /\ (forall r, cls_tokens h !! token = Some r -> expired r now = true ->
      getTokenData self token now h = (Raise KeyError, purged self token h)
      /\ cls_tokens (purged self token h) = delete token (cls_tokens h))
  /\ (forall r, cls_tokens h !! token = Some r -> expired r now = false ->
      getTokenData self token now h = (Ok (DictTokenStorage.scope r, data r), h))
  /\ (forall v h', getTokenData self token now h = (Ok v, h') ->
      exists r, cls_tokens h !! token = Some r /\ expired r now = false
                /\ v = (DictTokenStorage.scope r, data r)).
Proof.
  rewrite getTokenData_eval.
  destruct (cls_tokens h !! token) as [r |] eqn:Hlook.
  - destruct (expired r now) eqn:Hexp.
    + split; [done |]. split; [| split].
      * intros r' _ _. split; reflexivity.
      * intros r' [= <-]. congruence.
      * intros v h' [=].
    + split; [done |]. split; [| split].
      * intros r' [= <-]. congruence.
      * intros r' [= <-] _. reflexivity.
      * intros v h' [= <- <-]. by exists r.
  - split; [done |]. split; [| split].
    + intros r [=].
    + intros r [=].
    + intros v h' [=].
Qed.

(** C10 -- for a present, unexpired record, [hasAccess] with the empty
    requested scope returns true, whatever scope is stored. *)
Theorem DictTokenStorage_hasAccess_empty_scope self token now h r :
  cls_tokens h !! token = Some r ->
  expired r now = false ->
  hasAccess self token [] now h = (Ok true, h).
Proof.
  intros Hlook Hexp. rewrite hasAccess_eval, Hlook, Hexp. reflexivity.
Qed.

Lemma DictTokenStorage_hasAccess_empty_scope_witness :
  cls_tokens Fixtures.heap_with_expiring_token !! "token"
    = Some (mkRecord (PyStr "data") (Some 100) [PyStr "All"; PyStr "scope"])
  /\ expired (mkRecord (PyStr "data") (Some 100) [PyStr "All"; PyStr "scope"]) 100 = false
  /\ hasAccess Fixtures._REFRESH_TOKEN_STORAGE "token" [] 100
       Fixtures.heap_with_expiring_token
     = (Ok true, Fixtures.heap_with_expiring_token).
Proof.
  assert (Hlook : cls_tokens Fixtures.heap_with_expiring_token !! "token"
                  = Some (mkRecord (PyStr "data") (Some 100)
                            [PyStr "All"; PyStr "scope"]))
    by reflexivity.
  assert (Hexp : expired (mkRecord (PyStr "data") (Some 100)
                            [PyStr "All"; PyStr "scope"]) 100 = false)
    by reflexivity.
  split; [exact Hlook | split; [exact Hexp |]].
  exact (DictTokenStorage_hasAccess_empty_scope Fixtures._REFRESH_TOKEN_STORAGE
           "token" 100 Fixtures.heap_with_expiring_token _ Hlook Hexp).
Defined.

End DictTokenStorageClaims.

(** ** Text: [split] after [join] *)

Lemma append_cons (c : ascii) (a b : string) : String c a +:+ b = String c (a +:+ b).
Proof. reflexivity. Qed.

Lemma append_empty_l (b : string) : "" +:+ b = b.
Proof. reflexivity. Qed.

Lemma append_assoc_char (a : string) (c : ascii) (w : string) :
  (a +:+ String c "") +:+ w = a +:+ String c w.
Proof.
  induction a as [| x a IH]; [reflexivity |].
  by rewrite !append_cons, IH.
Qed.

Lemma append_empty_r (a : string) : a +:+ "" = a.
Proof.
  induction a as [| x a IH]; [reflexivity |].
  by rewrite append_cons, IH.
Qed.

(** Reading a whitespace-free word moves it into the accumulator. *)
Lemma split_go_word (w rest acc : string) :
  PyStr.no_whitespace w = true ->
  PyStr.split_go (w +:+ rest) acc = PyStr.split_go rest (acc +:+ w).
Proof.
  revert acc. induction w as [| c w IH]; intros acc Hw.
  - by rewrite append_empty_l, append_empty_r.
  - simpl in Hw. apply andb_true_iff in Hw as [Hc Hw].
    apply negb_true_iff in Hc.
    rewrite append_cons. cbn [PyStr.split_go]. rewrite Hc.
    rewrite (IH _ Hw). by rewrite append_assoc_char.
Qed.

Lemma split_join (l : list string) :
  Forall (fun u => u <> "" /\ PyStr.no_whitespace u = true) l ->
  PyStr.split (PyStr.join " " l) = l.
Proof.
  unfold PyStr.split. induction 1 as [| u rest [Hne Hws] Hrest IH]; [done |].
  destruct rest as [| v rest'].
  - cbn [PyStr.join]. rewrite <- (append_empty_r u) at 1.
    rewrite (split_go_word _ _ _ Hws), append_empty_l. cbn [PyStr.split_go].
    by rewrite bool_decide_eq_false_2.
  - change (PyStr.join " " (u :: v :: rest'))
      with (u +:+ " " +:+ PyStr.join " " (v :: rest')).
    rewrite (split_go_word _ _ _ Hws), append_empty_l.
    rewrite append_cons, append_empty_l.
    cbn [PyStr.split_go].
    change (PyStr.isspace " ") with true. cbn iota.
    rewrite bool_decide_eq_false_2 by done.
    by rewrite IH.
Qed.

(** ** RawConfigParser *)

Lemma sectionName_not_empty (clientId : string) : "client_" +:+ clientId <> "".
Proof. rewrite append_cons. discriminate. Qed.

Lemma sectionName_not_default (clientId : string) :
  "client_" +:+ clientId <> RawConfigParser.default_section.
Proof. rewrite append_cons. unfold RawConfigParser.default_section. intros [=]. Qed.

Lemma has_section_lookup (p : RawConfigParser.t) (section : string) :
  RawConfigParser.has_section p section = true
  <-> is_Some (RawConfigParser._sections p !! section).
Proof. unfold RawConfigParser.has_section. apply bool_decide_eq_true. Qed.

Lemma set_in_section (p : RawConfigParser.t) (section option : string)
    (v : pyobj) (d : gmap string pyobj) :
  section <> "" -> section <> RawConfigParser.default_section ->
  RawConfigParser._sections p !! section = Some d ->
  RawConfigParser.set p section option v =
    Ok (RawConfigParser.mk
          (<[section := <[RawConfigParser.optionxform option := v]> d]>
             (RawConfigParser._sections p))
          (RawConfigParser._defaults p)).
Proof.
  intros Hne Hnd Hlook. unfold RawConfigParser.set.
  rewrite (bool_decide_eq_false_2 _ Hne), (bool_decide_eq_false_2 _ Hnd).
  simpl. by rewrite Hlook.
Qed.

Lemma get_in_section (p : RawConfigParser.t) (section option : string)
    (v : pyobj) (d : gmap string pyobj) :
  RawConfigParser._sections p !! section = Some d ->
  d !! RawConfigParser.optionxform option = Some v ->
  RawConfigParser.get p section option = Ok v.
Proof.
  intros Hlook Hopt. unfold RawConfigParser.get. by rewrite Hlook, Hopt.
Qed.

(** ** ConfigParserClientStorage *)

Section ClientStorageProperties.

Import Clients ConfigParserClientStorage.

Variable value : ClientAuthType -> Z.
Variable int_of_text : string -> option Z.

Implicit Types (st : Storage) (c : Client).

Lemma update_set st (section option : string) (v : pyobj) (d : gmap string pyobj) :
  section <> "" -> section <> RawConfigParser.default_section ->
  RawConfigParser._sections (_configParser st) !! section = Some d ->
  update_parser (fun p => RawConfigParser.set p section option v) st =
    (Ok tt,
     mkStorage
       (RawConfigParser.mk
          (<[section := <[RawConfigParser.optionxform option := v]> d]>
             (RawConfigParser._sections (_configParser st)))
          (RawConfigParser._defaults (_configParser st)))
       (path st) (file st)).
Proof.
  intros Hne Hnd Hlook. unfold update_parser.
  by rewrite (set_in_section _ _ _ _ _ Hne Hnd Hlook).
Qed.

(** The three [set] calls of [addClient], from a state that has the
    section. *)
Lemma addClient_sets c (os : os_outcome) st (d : gmap string pyobj) :
  RawConfigParser._sections (_configParser st) !! ("client_" +:+ id c) = Some d ->
  exists st',
    (let! _ := update_parser (fun p =>
                 RawConfigParser.set p ("client_" +:+ id c) "auth_type"
                   (PyInt (value (authType c)))) in
     let! _ := update_parser (fun p =>
                 RawConfigParser.set p ("client_" +:+ id c) "auth_token" (authToken c)) in
     let! _ := update_parser (fun p =>
                 RawConfigParser.set p ("client_" +:+ id c) "redirect_uris"
                   (PyStr (PyStr.join " " (redirectUris c)))) in
     write_file os) st
    = (os_result os, st')
    /\ exists d',
        RawConfigParser._sections (_configParser st') !! ("client_" +:+ id c) = Some d'
        /\ d' !! "auth_type" = Some (PyInt (value (authType c)))
        /\ d' !! "auth_token" = Some (authToken c)
        /\ d' !! "redirect_uris" = Some (PyStr (PyStr.join " " (redirectUris c))).
Proof.
  intros Hlook.
  pose proof (sectionName_not_empty (id c)) as Hne.
  pose proof (sectionName_not_default (id c)) as Hnd.
  unfold Eff.bind at 1.
  rewrite (update_set _ _ _ _ _ Hne Hnd Hlook).
  unfold Eff.bind at 1.
  erewrite update_set; [| exact Hne | exact Hnd | apply lookup_insert_eq].
  unfold Eff.bind at 1.
  erewrite update_set; [| exact Hne | exact Hnd | apply lookup_insert_eq].
  cbn [_configParser path file RawConfigParser._sections RawConfigParser._defaults].
  unfold write_file.
  destruct os; eexists; (split; [reflexivity |]);
    cbn [_configParser RawConfigParser._sections];
    eexists; (split; [apply lookup_insert_eq |]);
    change (RawConfigParser.optionxform "auth_type") with "auth_type";
    change (RawConfigParser.optionxform "auth_token") with "auth_token";
    change (RawConfigParser.optionxform "redirect_uris") with "redirect_uris";
    repeat split; by simplify_map_eq.
Qed.

(** [addClient] returns unless the operating system refuses the write, and
    in every case leaves the client's section with its three options in the
    parser. *)
Lemma addClient_parser c (os : os_outcome) st :
  exists st',
    addClient value c os st = (os_result os, st')
    /\ exists d',
        RawConfigParser._sections (_configParser st') !! ("client_" +:+ id c) = Some d'
        /\ d' !! "auth_type" = Some (PyInt (value (authType c)))
        /\ d' !! "auth_token" = Some (authToken c)
        /\ d' !! "redirect_uris" = Some (PyStr (PyStr.join " " (redirectUris c))).
Proof.
  unfold addClient. unfold Eff.bind at 1. unfold read_parser at 1.
  destruct (RawConfigParser._sections (_configParser st) !! ("client_" +:+ id c))
    as [d |] eqn:Hlook.
  - assert (Hhas : RawConfigParser.has_section (_configParser st)
                     ("client_" +:+ id c) = true).
    { apply has_section_lookup. by rewrite Hlook. }
    rewrite Hhas. cbn [negb]. unfold Eff.bind at 1. unfold Eff.ret at 1.
    apply (addClient_sets c os st d Hlook).
  - assert (Hhas : RawConfigParser.has_section (_configParser st)
                     ("client_" +:+ id c) = false).
    { apply not_true_iff_false. rewrite has_section_lookup, Hlook.
      by intros [? [=]]. }
    rewrite Hhas. cbn [negb]. unfold Eff.bind at 1. unfold update_parser at 1.
    unfold RawConfigParser.add_section.
    rewrite (bool_decide_eq_false_2 _ (sectionName_not_default (id c))), Hhas.
    eapply addClient_sets. cbn. apply lookup_insert_eq.
Qed.

(** [getClient] on a parser that holds the section of a client as
    [addClient] writes it. *)
Lemma getClient_stored c st (d : gmap string pyobj) :
  value PUBLIC <> value SECRET ->
  Clients.valid c = true ->
  forallb PyStr.no_whitespace (redirectUris c) = true ->
  RawConfigParser._sections (_configParser st) !! ("client_" +:+ id c) = Some d ->
  d !! "auth_type" = Some (PyInt (value (authType c))) ->
  d !! "auth_token" = Some (authToken c) ->
  d !! "redirect_uris" = Some (PyStr (PyStr.join " " (redirectUris c))) ->
  getClient value int_of_text (id c) st = (Ok c, st).
Proof.
  intros Hinj Hvalid Hws Hlook Htype Htoken Huris.
  unfold getClient. unfold Eff.bind at 1. unfold read_parser at 1.
  assert (Hhas : RawConfigParser.has_section (_configParser st)
                   ("client_" +:+ id c) = true).
  { apply has_section_lookup. by rewrite Hlook. }
  rewrite Hhas. cbn [negb].
  unfold Eff.bind at 1. unfold read_parser at 1.
  rewrite (get_in_section _ _ "redirect_uris" _ _ Hlook Huris).
  unfold Eff.bind at 1. unfold lift at 1.
  unfold Eff.bind at 1. unfold read_parser at 1.
  unfold RawConfigParser.getint.
  rewrite (get_in_section _ _ "auth_type" _ _ Hlook Htype).
  cbn [RawConfigParser.int].
  unfold Eff.bind at 1. unfold lift at 1.
  assert (Htag : ClientAuthType_of_value value (value (authType c)) = Ok (authType c)).
  { unfold ClientAuthType_of_value. destruct (authType c).
    - by rewrite bool_decide_eq_true_2.
    - rewrite (bool_decide_eq_false_2 _ Hinj). by rewrite bool_decide_eq_true_2. }
  rewrite Htag.
  unfold Eff.bind at 1. unfold read_parser at 1.
  rewrite (get_in_section _ _ "auth_token" _ _ Hlook Htoken).
  unfold lift, Clients.__init__.
  assert (Hsplit : PyStr.split (PyStr.join " " (redirectUris c)) = redirectUris c).
  { apply split_join. apply Forall_forall. intros u Hu.
    apply list_elem_of_In in Hu.
    unfold Clients.valid in Hvalid.
    rewrite forallb_forall in Hvalid, Hws. split.
    - intros ->. by specialize (Hvalid _ Hu).
    - by apply Hws. }
  rewrite Hsplit. unfold Clients.valid in Hvalid. rewrite Hvalid.
  by destruct c.
Qed.

(** An identifier without a section is not found, and the storage is left as
    it was. *)
Lemma getClient_unknown (clientId : string) st :
  RawConfigParser._sections (_configParser st) !! ("client_" +:+ clientId) = None ->
  getClient value int_of_text clientId st = (Raise KeyError, st).
Proof.
  intros Hlook. unfold getClient. unfold Eff.bind at 1. unfold read_parser at 1.
  assert (Hhas : RawConfigParser.has_section (_configParser st)
                   ("client_" +:+ clientId) = false).
  { apply not_true_iff_false. rewrite has_section_lookup, Hlook.
    by intros [? [=]]. }
  by rewrite Hhas.
Qed.

End ClientStorageProperties.

Section ClientStorageClaims.

Import Clients ConfigParserClientStorage.

(** C6, as the code has it -- for a valid client none of whose redirect URIs
    contains a whitespace character (the two authentication kinds having
    different integer values), [addClient] returns when the file can be
    written, and [getClient] on the client's identifier afterwards returns a
    client with the same [id], [redirectUris], [authType] and [authToken];
    [getClient] on an identifier that has no section raises [KeyError]. *)
Theorem ConfigParserClientStorage_roundtrip (value : ClientAuthType -> Z)
    (int_of_text : string -> option Z) (c : Client) (os : os_outcome) (st : Storage) :
  value PUBLIC <> value SECRET ->
  Clients.valid c = true ->
  forallb PyStr.no_whitespace (redirectUris c) = true ->
  (addClient value c Written st).1 = Ok tt
  /\ (let st' := (addClient value c os st).2 in
      getClient value int_of_text (id c) st' = (Ok c, st'))
  /\ (forall (clientId : string) (st0 : Storage),
        RawConfigParser._sections (_configParser st0) !! ("client_" +:+ clientId) = None ->
        getClient value int_of_text clientId st0 = (Raise KeyError, st0)).
Proof.
  intros Hinj Hvalid Hws. split; [| split].
  - destruct (addClient_parser value c Written st) as (st' & -> & _). reflexivity.
  - destruct (addClient_parser value c os st)
      as (st' & -> & d' & Hlook & Htype & Htoken & Huris).
    cbn [snd]. by apply (getClient_stored value int_of_text c st' d').
  - intros clientId st0. apply getClient_unknown.
Qed.

Lemma ConfigParserClientStorage_roundtrip_witness :
  Fixtures.auth_type_value PUBLIC <> Fixtures.auth_type_value SECRET
  /\ Clients.valid Fixtures.new_client = true
  /\ forallb PyStr.no_whitespace (redirectUris Fixtures.new_client) = true
  /\ (addClient Fixtures.auth_type_value Fixtures.new_client Written
        Fixtures.empty_storage).1 = Ok tt
  /\ getClient Fixtures.auth_type_value Fixtures.decimal "newClientId"
       (addClient Fixtures.auth_type_value Fixtures.new_client Written
          Fixtures.empty_storage).2
     = (Ok Fixtures.new_client,
        (addClient Fixtures.auth_type_value Fixtures.new_client Written
           Fixtures.empty_storage).2)
  /\ getClient Fixtures.auth_type_value Fixtures.decimal "invalidClientId"
       Fixtures.empty_storage
     = (Raise KeyError, Fixtures.empty_storage).
Proof.
  assert (Hinj : Fixtures.auth_type_value PUBLIC <> Fixtures.auth_type_value SECRET)
    by (simpl; lia).
  assert (Hvalid : Clients.valid Fixtures.new_client = true) by reflexivity.
  assert (Hws : forallb PyStr.no_whitespace (redirectUris Fixtures.new_client) = true)
    by reflexivity.
  destruct (ConfigParserClientStorage_roundtrip Fixtures.auth_type_value
              Fixtures.decimal Fixtures.new_client Written Fixtures.empty_storage
              Hinj Hvalid Hws) as (Hadd & Hget & Hmissing).
  split; [exact Hinj | split; [exact Hvalid | split; [exact Hws |]]].
  split; [exact Hadd | split; [exact Hget |]].
  apply Hmissing. reflexivity.
Defined.

(** C6, as the claim has it, fails: a client with the single redirect URI
    ["https://a.nonexistent/x https://b.nonexistent/y"] is valid, [addClient]
    accepts it, and [getClient] returns a client with two redirect URIs. *)
Lemma ConfigParserClientStorage_roundtrip_counterexample :
  Clients.valid Fixtures.spaced_client = true
  /\ (addClient Fixtures.auth_type_value Fixtures.spaced_client Written
        Fixtures.empty_storage).1 = Ok tt
  /\ exists c',
      (getClient Fixtures.auth_type_value Fixtures.decimal
         (id Fixtures.spaced_client)
         (addClient Fixtures.auth_type_value Fixtures.spaced_client Written
            Fixtures.empty_storage).2).1 = Ok c'
      /\ redirectUris c' = ["https://a.nonexistent/x"; "https://b.nonexistent/y"]
      /\ redirectUris c' <> redirectUris Fixtures.spaced_client.
Proof.
  split; [reflexivity | split; [reflexivity |]].
  eexists. split; [vm_compute; reflexivity |]. split; [reflexivity | discriminate].
Qed.

End ClientStorageClaims.

(** ** UUIDTokenFactory *)

Section UUIDProperties.

Import UUIDTokenFactory.

Lemma int_from_bytes_acc_bound (bs : list Byte.byte) (acc : Z) :
  0 <= acc ->
  0 <= fold_left (fun a b => a * 256 + Z.of_N (Byte.to_N b)) bs acc
     < (acc + 1) * 256 ^ Z.of_nat (length bs).
Proof.
  revert acc. induction bs as [| b bs IH]; intros acc Hacc.
  - simpl. lia.
  - cbn [fold_left length].
    pose proof (Byte.to_N_bounded b) as Hb.
    assert (Hstep : 0 <= acc * 256 + Z.of_N (Byte.to_N b)) by lia.
    specialize (IH _ Hstep).
    rewrite Nat2Z.inj_succ, Z.pow_succ_r by lia.
    split; [lia |].
    eapply Z.lt_le_trans; [apply IH |].
    assert (0 <= 256 ^ Z.of_nat (length bs)) by (apply Z.pow_nonneg; lia).
    nia.
Qed.

Lemma int_from_bytes_bound (bs : list Byte.byte) :
  0 <= int_from_bytes bs < 256 ^ Z.of_nat (length bs).
Proof.
  pose proof (int_from_bytes_acc_bound bs 0 ltac:(lia)) as H.
  unfold int_from_bytes. lia.
Qed.

Lemma length_os_urandom (entropy : nat -> Byte.byte) (n : nat) :
  length (os_urandom entropy n) = n.
Proof. unfold os_urandom. by rewrite length_map, length_seq. Qed.

(** A non-negative number whose bits from 128 on are all clear is below
    [2^128]. *)
Lemma below_2_128 (x : Z) :
  0 <= x -> (forall n, 128 <= n -> Z.testbit x n = false) -> x < 2 ^ 128.
Proof.
  intros Hx Hbits.
  destruct (Z.eq_dec x 0) as [-> | Hne]; [lia |].
  apply Z.log2_lt_pow2; [lia |].
  destruct (Z_lt_le_dec (Z.log2 x) 128) as [Hlt | Hge]; [exact Hlt |].
  specialize (Hbits _ Hge). rewrite Z.bit_log2 in Hbits by lia. discriminate.
Qed.

Lemma bits_above_128 (x n : Z) :
  0 <= x < 2 ^ 128 -> 128 <= n -> Z.testbit x n = false.
Proof.
  intros [Hx Hlt] Hn.
  destruct (Z.eq_dec x 0) as [-> | Hne]; [apply Z.bits_0 |].
  apply Z.bits_above_log2; [lia |].
  assert (Z.log2 x < 128) by (apply Z.log2_lt_pow2; lia). lia.
Qed.

(** The version and variant bits keep the integer within 128 bits. *)
Lemma UUID_bound (bs : list Byte.byte) (u : Z) :
  UUID bs 4 = Ok u -> 0 <= u < 2 ^ 128.
Proof.
  unfold UUID. destruct (length bs =? 16)%nat eqn:Hlen; [| discriminate].
  apply Nat.eqb_eq in Hlen. cbn [negb]. intros [= <-].
  pose proof (int_from_bytes_bound bs) as Hb. rewrite Hlen in Hb.
  change (256 ^ Z.of_nat 16) with (2 ^ 128) in Hb.
  set (x := int_from_bytes bs) in *.
  assert (Hnonneg :
    0 <= Z.lor (Z.land (Z.lor (Z.land x (Z.lnot (Z.shiftl 49152 48)))
                           (Z.shiftl 32768 48))
                   (Z.lnot (Z.shiftl 61440 64)))
              (Z.shiftl 4 76)).
  { apply Z.lor_nonneg. split; [| by vm_compute].
    apply Z.land_nonneg. left.
    apply Z.lor_nonneg. split; [| by vm_compute].
    apply Z.land_nonneg. left. lia. }
  split; [exact Hnonneg |].
  apply below_2_128; [exact Hnonneg |].
  intros n Hn.
  rewrite Z.lor_spec, Z.land_spec, Z.lor_spec, Z.land_spec.
  rewrite (bits_above_128 x n Hb Hn).
  rewrite (bits_above_128 (Z.shiftl 32768 48) n);
    [| vm_compute; intuition congruence | exact Hn].
  rewrite (bits_above_128 (Z.shiftl 4 76) n);
    [reflexivity | vm_compute; intuition congruence | exact Hn].
Qed.

Lemma hexdigit_is_hexdigit (v : Z) : is_hexdigit (hexdigit (v mod 16)) = true.
Proof.
  unfold is_hexdigit, hexdigit. apply bool_decide_eq_true.
  apply list_elem_of_In, nth_In.
  pose proof (Z.mod_pos_bound v 16 ltac:(lia)) as Hm.
  change (length hexdigits) with 16%nat. lia.
Qed.

Lemma format_x_go_hex (fuel : nat) (v : Z) (acc : list ascii) :
  Forall (fun c => is_hexdigit c = true) acc ->
  Forall (fun c => is_hexdigit c = true) (format_x_go fuel v acc).
Proof.
  revert v acc. induction fuel as [| fuel IH]; intros v acc Hacc; [exact Hacc |].
  cbn [format_x_go].
  assert (Hacc' : Forall (fun c => is_hexdigit c = true) (hexdigit (v mod 16) :: acc))
    by (constructor; [apply hexdigit_is_hexdigit | exact Hacc]).
  destruct (v / 16 =? 0); [exact Hacc' | by apply IH].
Qed.

(** A number below [16^n] has at most [n] digits. *)
Lemma format_x_go_length (fuel : nat) (v : Z) (acc : list ascii) (n : nat) :
  (1 <= n)%nat -> 0 <= v < 16 ^ Z.of_nat n ->
  (length acc <= length (format_x_go fuel v acc) <= n + length acc)%nat.
Proof.
  revert v acc n. induction fuel as [| fuel IH]; intros v acc n Hn Hv.
  - simpl. lia.
  - cbn [format_x_go].
    destruct (v / 16 =? 0) eqn:Hq.
    + simpl. lia.
    + apply Z.eqb_neq in Hq.
      destruct n as [| [| n']]; [lia | |].
      * change (16 ^ Z.of_nat 1) with 16 in Hv.
        exfalso. apply Hq. apply Z.div_small. lia.
      * assert (Hv' : 0 <= v / 16 < 16 ^ Z.of_nat (S n')).
        { rewrite (Nat2Z.inj_succ (S n')), Z.pow_succ_r in Hv by lia.
          split; [apply Z.div_pos; lia |].
          apply Z.div_lt_upper_bound; lia. }
        specialize (IH (v / 16) (hexdigit (v mod 16) :: acc) (S n') ltac:(lia) Hv').
        cbn [length] in IH. lia.
Qed.

Lemma format_032x_spec (v : Z) :
  0 <= v < 2 ^ 128 ->
  length (format_032x v) = 32%nat
  /\ Forall (fun c => is_hexdigit c = true) (format_032x v).
Proof.
  intros Hv. unfold format_032x, format_x.
  pose proof (format_x_go_length (S (Z.to_nat (Z.log2 v))) v [] 32 ltac:(lia) Hv)
    as Hlen.
  set (digits := format_x_go (S (Z.to_nat (Z.log2 v))) v []) in *.
  cbn [length] in Hlen. split.
  - rewrite length_app, repeat_length. lia.
  - apply Forall_app. split.
    + apply Forall_forall. intros c Hc. apply list_elem_of_In in Hc.
      apply repeat_spec in Hc as ->. reflexivity.
    + apply format_x_go_hex. constructor.
Qed.

(** The text of a UUID, from the 32 digits. *)
Lemma UUID_str_canonical (int : Z) :
  0 <= int < 2 ^ 128 -> canonical_form (UUID_str int) = true.
Proof.
  intros Hint. unfold UUID_str, canonical_form.
  destruct (format_032x_spec int Hint) as [Hlen Hhex].
  rewrite list_ascii_of_string_of_list_ascii.
  remember (format_032x int) as hex eqn:Hhex_eq. clear Hhex_eq.
  do 32 (destruct hex as [| ? hex]; [discriminate Hlen |]).
  destruct hex; [| discriminate Hlen].
  repeat (apply Forall_cons_1 in Hhex as [? Hhex]).
  cbn -[is_hexdigit].
  repeat match goal with
         | H : is_hexdigit _ = true |- _ => rewrite H; clear H
         end.
  reflexivity.
Qed.

End UUIDProperties.

Section UUIDClaims.

Import UUIDTokenFactory.

Lemma hexdigit_valid (punctuation : list ascii) (c : ascii) :
  is_hexdigit c = true -> c ∈ TokenResource.VALID_TOKEN_CHARS punctuation.
Proof.
  unfold is_hexdigit. rewrite bool_decide_eq_true. intros Hc.
  unfold TokenResource.VALID_TOKEN_CHARS. apply elem_of_app. left.
  apply list_elem_of_In in Hc. apply list_elem_of_In.
  unfold hexdigits in Hc. simpl in Hc. simpl.
  repeat (destruct Hc as [<- | Hc]; [tauto |]). destruct Hc.
Qed.

Lemma canonical_from_valid (punctuation : list ascii) (l : list ascii) (i : nat) :
  "-"%char ∈ punctuation ->
  canonical_from i l = true ->
  forallb (fun c => bool_decide (c ∈ TokenResource.VALID_TOKEN_CHARS punctuation)) l
  = true.
Proof.
  intros Hhyphen. revert i. induction l as [| c l IH]; intros i Hl; [done |].
  cbn [canonical_from] in Hl. apply andb_true_iff in Hl as [Hc Hl].
  cbn [forallb]. rewrite (IH _ Hl), andb_true_r. apply bool_decide_eq_true.
  unfold canonical_at in Hc.
  destruct ((i =? 8) || (i =? 13) || (i =? 18) || (i =? 23))%nat.
  - apply bool_decide_eq_true in Hc as ->.
    unfold TokenResource.VALID_TOKEN_CHARS. apply elem_of_app. by right.
  - by apply hexdigit_valid.
Qed.

(** Every text in the canonical form of a UUID is a valid token, for every
    alphabet that has the hyphen among its punctuation. *)
Lemma canonical_form_valid (punctuation : list ascii) (s : string) :
  "-"%char ∈ punctuation ->
  canonical_form s = true ->
  TokenResource.isValidToken punctuation s = true.
Proof.
  intros Hhyphen Hs. unfold canonical_form in Hs.
  apply andb_true_iff in Hs as [Hlen Hfrom].
  unfold TokenResource.isValidToken. apply andb_true_iff. split.
  - apply negb_true_iff, bool_decide_eq_false. intros ->. discriminate Hlen.
  - by apply (canonical_from_valid punctuation _ 0%nat).
Qed.

(** The text for two entropy sources: the version digit is [4], the variant
    digit one of [8], [9], [a], [b]. *)
Example generateToken_ff :
  generateToken PyNone Fixtures.test_client Fixtures._VALID_SCOPE PyNone
    Fixtures.entropy_ff
  = Ok "ffffffff-ffff-4fff-bfff-ffffffffffff".
Proof. vm_compute. reflexivity. Qed.

Example generateToken_count :
  generateToken PyNone Fixtures.test_client Fixtures._VALID_SCOPE PyNone
    Fixtures.entropy_count
  = Ok "00112233-4455-4677-8899-aabbccddeeff".
Proof. vm_compute. reflexivity. Qed.

End UUIDClaims.

(** ** The token endpoint *)

Section TokenResourceProperties.

Import TokenResource.

Context {TokenFactory PersistentStorage TokenStorage ClientStorage PasswordManager : Type}.

(** What collecting the parameters one by one leaves under a name. *)
Lemma collect_lookup (l : list (string * list Byte.byte)) (name : string)
    (m : gmap string (list (list Byte.byte))) :
  fold_left (fun m kv => <[kv.1 := default [] (m !! kv.1) ++ [kv.2]]> m) l m !! name
  = match map snd (filter (fun kv => kv.1 = name) l) with
    | [] => m !! name
    | values => Some (default [] (m !! name) ++ values)
    end.
Proof.
  revert m. induction l as [| [k v] l IH]; intros m; [done |].
  cbn [fold_left]. rewrite IH. cbn [fst snd].
  destruct (decide (k = name)) as [-> | Hne].
  - rewrite filter_cons_True by done. cbn [map snd].
    rewrite lookup_insert_eq. cbn [default].
    destruct (map snd (filter (fun kv => kv.1 = name) l)) as [| v' values];
      [done |].
    unfold id. by rewrite <- app_assoc.
  - rewrite filter_cons_False by done.
    by rewrite lookup_insert_ne.
Qed.

Lemma args_occurrences (request : Request) (name : string) :
  args request !! name
  = match occurrences name request with
    | [] => None
    | values => Some values
    end.
Proof.
  unfold args, occurrences. rewrite collect_lookup.
  by destruct (map snd _).
Qed.

(** C2 -- the order in which [grant_type] is handled, counting its values
    over the query and the body together: none -- [MissingParameterError];
    two or more -- [MultipleParameterError], whatever the values are; exactly
    one that does not decode -- [InvalidParameterError]; exactly one that
    decodes to a grant type the instance does not accept --
    [UnsupportedGrantTypeError] with that value; otherwise the grant type is
    passed on. *)
Theorem TokenResource_grant_type_order (decode : list Byte.byte -> option string)
    (self : @TokenResource.t TokenFactory PersistentStorage TokenStorage
              ClientStorage PasswordManager)
    (request : Request) :
  (occurrences "grant_type" request = [] ->
     checkGrantType decode self request = inl (MissingParameterError "grant_type"))
  /\ ((2 <= length (occurrences "grant_type" request))%nat ->
      checkGrantType decode self request = inl (MultipleParameterError "grant_type"))
  /\ (forall value, occurrences "grant_type" request = [value] ->
      decode value = None ->
      checkGrantType decode self request = inl (InvalidParameterError "grant_type"))
  /\ (forall value grantType, occurrences "grant_type" request = [value] ->
      decode value = Some grantType ->
      grantType ∉ acceptedGrantTypes self ->
      checkGrantType decode self request = inl (UnsupportedGrantTypeError grantType))
  /\ (forall value grantType, occurrences "grant_type" request = [value] ->
      decode value = Some grantType ->
      grantType ∈ acceptedGrantTypes self ->
      checkGrantType decode self request = inr grantType).
Proof.
  unfold checkGrantType. rewrite args_occurrences.
  destruct (occurrences "grant_type" request) as [| v1 [| v2 rest]].
  - split; [done |]. split; [simpl; lia |].
    split; [intros ? [=] |]. split; intros ? ? [=].
  - split; [intros [=] |]. split; [simpl; lia |].
    split; [| split].
    + intros value [= <-] Hdec. by rewrite Hdec.
    + intros value grantType [= <-] Hdec Hnot. rewrite Hdec.
      by rewrite bool_decide_eq_false_2.
    + intros value grantType [= <-] Hdec Hin. rewrite Hdec.
      by rewrite bool_decide_eq_true_2.
  - split; [intros [=] |]. split; [done |].
    split; [intros ? [=] |]. split; intros ? ? [=].
Qed.

(** The same within the pipeline: once the transport and the content type
    have been accepted, the answer is that of the step for [grant_type]. *)
Lemma acceptRequest_grant_type (decode : list Byte.byte -> option string)
    (self : @TokenResource.t TokenFactory PersistentStorage TokenStorage
              ClientStorage PasswordManager)
    (request : Request) :
  allowInsecureRequestDebug self || isSecure request = true ->
  contentType request = Some "application/x-www-form-urlencoded" ->
  acceptRequest decode self request = checkGrantType decode self request.
Proof.
  intros Hsecure Hform. unfold acceptRequest.
  rewrite <- negb_orb, Hsecure. cbn [negb].
  by rewrite bool_decide_eq_true_2.
Qed.

(** C7 -- with the password grant among the enabled grant types and no
    password manager, the constructor raises [ValueError]: no resource
    object comes into being that a request could reach. *)
Theorem TokenResource_password_grant_requires_passwordManager
    (tokenFactory : TokenFactory) (persistentStorage : PersistentStorage)
    (refreshTokenStorage authTokenStorage : TokenStorage)
    (clientStorage : ClientStorage) (grantTypes : option (list GrantTypeArg))
    (authTokenLifeTime : option Z) (allowInsecureRequestDebug : bool) :
  GrantTypes_value PASSWORD ∈ enabledGrantTypes grantTypes ->
  __init__ (PasswordManager := PasswordManager) tokenFactory persistentStorage
    refreshTokenStorage authTokenStorage clientStorage None grantTypes
    authTokenLifeTime allowInsecureRequestDebug
  = Raise ValueError.
Proof.
  intros Henabled. unfold __init__.
  by rewrite bool_decide_eq_true_2.
Qed.

(** With a password manager, or without the password grant, the constructor
    returns a resource that accepts the enabled grant types. *)
Lemma TokenResource_init_ok
    (tokenFactory : TokenFactory) (persistentStorage : PersistentStorage)
    (refreshTokenStorage authTokenStorage : TokenStorage)
    (clientStorage : ClientStorage) (passwordManager : option PasswordManager)
    (grantTypes : option (list GrantTypeArg))
    (authTokenLifeTime : option Z) (allowInsecureRequestDebug : bool) :
  is_Some passwordManager \/ GrantTypes_value PASSWORD ∉ enabledGrantTypes grantTypes ->
  exists self,
    __init__ tokenFactory persistentStorage refreshTokenStorage authTokenStorage
      clientStorage passwordManager grantTypes authTokenLifeTime
      allowInsecureRequestDebug = Ok self
    /\ acceptedGrantTypes self = enabledGrantTypes grantTypes.
Proof.
  intros [[pm ->] | Hnot]; unfold __init__.
  - rewrite andb_false_r. by eexists.
  - rewrite bool_decide_eq_false_2 by done. by eexists.
Qed.

End TokenResourceProperties.

Lemma TokenResource_grant_type_order_witness :
  (2 <= length (TokenResource.occurrences "grant_type" Fixtures.duplicated_request))%nat
  /\ TokenResource.checkGrantType Fixtures.decode_ascii Fixtures._TOKEN_RESOURCE
       Fixtures.duplicated_request
     = inl (TokenResource.MultipleParameterError "grant_type")
  /\ TokenResource.checkGrantType Fixtures.decode_ascii Fixtures._TOKEN_RESOURCE
       Fixtures.no_grant_type_request
     = inl (TokenResource.MissingParameterError "grant_type")
  /\ TokenResource.checkGrantType Fixtures.decode_ascii Fixtures._TOKEN_RESOURCE
       Fixtures.invalid_request
     = inl (TokenResource.InvalidParameterError "grant_type")
  /\ TokenResource.checkGrantType Fixtures.decode_ascii Fixtures._TOKEN_RESOURCE
       Fixtures.unsupported_request
     = inl (TokenResource.UnsupportedGrantTypeError "extendedFunctionalityGrantType").
Proof.
  assert (Hdup : (2 <= length (TokenResource.occurrences "grant_type"
                                 Fixtures.duplicated_request))%nat)
    by (vm_compute; lia).
  split; [exact Hdup |].
  split.
  { exact (proj1 (proj2 (TokenResource_grant_type_order Fixtures.decode_ascii
                           Fixtures._TOKEN_RESOURCE Fixtures.duplicated_request))
             Hdup). }
  split.
  { exact (proj1 (TokenResource_grant_type_order Fixtures.decode_ascii
                    Fixtures._TOKEN_RESOURCE Fixtures.no_grant_type_request)
             eq_refl). }
  split.
  { exact (proj1 (proj2 (proj2 (TokenResource_grant_type_order Fixtures.decode_ascii
                    Fixtures._TOKEN_RESOURCE Fixtures.invalid_request)))
             _ eq_refl eq_refl). }
  assert (Hnot : "extendedFunctionalityGrantType"
                 ∉ TokenResource.acceptedGrantTypes Fixtures._TOKEN_RESOURCE)
    by (apply (bool_decide_eq_false _); vm_compute; reflexivity).
  exact (proj1 (proj2 (proj2 (proj2 (TokenResource_grant_type_order
                  Fixtures.decode_ascii Fixtures._TOKEN_RESOURCE
                  Fixtures.unsupported_request))))
           (Fixtures.b "extendedFunctionalityGrantType") _ eq_refl eq_refl Hnot).
Defined.

Lemma TokenResource_password_grant_requires_passwordManager_witness :
  TokenResource.GrantTypes_value TokenResource.PASSWORD
    ∈ TokenResource.enabledGrantTypes (Some [TokenResource.Member TokenResource.PASSWORD])
  /\ TokenResource.__init__ (PasswordManager := unit) tt tt tt tt tt None
       (Some [TokenResource.Member TokenResource.PASSWORD]) (Some 3600) false
     = Raise ValueError.
Proof.
  assert (Henabled :
    TokenResource.GrantTypes_value TokenResource.PASSWORD
      ∈ TokenResource.enabledGrantTypes
          (Some [TokenResource.Member TokenResource.PASSWORD]))
    by (apply list_elem_of_In; vm_compute; tauto).
  split; [exact Henabled |].
  exact (TokenResource_password_grant_requires_passwordManager (PasswordManager := unit)
           tt tt tt tt tt (Some [TokenResource.Member TokenResource.PASSWORD])
           (Some 3600) false Henabled).
Defined.

(** * Further properties *)

(** ** DictTokenStorage: how the operations compose *)

Section DictTokenStorageComposition.

Import DictTokenStorage Notions.

Implicit Types (self : Instance) (token : string) (now : Z) (h : Heap)
  (r : TokenRecord).

(** What a [store] that is kept does to the heap. *)
Lemma store_kept {Client : Type} self token (client : Client)
    (scope additionalData : pyobj) (expireTime : option Z) now h :
  storable expireTime now = true ->
  store self (PyStr token) client scope additionalData expireTime now h
  = (Ok tt,
     set_self_tokens self
       (<[token := mkRecord additionalData expireTime (scope_list scope)]>
          (cls_tokens h)) h).
Proof.
  intros Hkeep. unfold store.
  destruct expireTime as [e |]; [| reflexivity].
  cbn [storable] in Hkeep. apply Z.ltb_lt in Hkeep.
  destruct (e <=? now) eqn:Hle; [apply Z.leb_le in Hle; lia | reflexivity].
Qed.

Lemma live_not_expired (expireTime : option Z) (data : pyobj)
    (scope : list pyobj) now :
  live expireTime now = true -> expired (mkRecord data expireTime scope) now = false.
Proof.
  intros Hlive. unfold expired. simpl.
  destruct expireTime as [e |]; [| reflexivity].
  cbn [live] in Hlive. apply Z.leb_le in Hlive.
  rewrite Z.gtb_ltb. apply Z.ltb_ge. lia.
Qed.

Lemma lookup_after_set self (t : gmap string TokenRecord) h token :
  cls_tokens (set_self_tokens self t h) !! token = t !! token.
Proof. reflexivity. Qed.

(** X1 -- [store] then [getTokenData]: a record that [store] keeps is read
    back, at any time up to and including its expiry, as the pair of the
    scope list ([scope] itself if it is a list, the one-element list of it
    otherwise) and the additional data; the read leaves the heap alone. *)
Theorem DictTokenStorage_store_getTokenData {Client : Type} self token
    (client : Client) (scope additionalData : pyobj) (expireTime : option Z)
    now now' h :
  storable expireTime now = true ->
  live expireTime now' = true ->
  let h1 := (store self (PyStr token) client scope additionalData expireTime now h).2 in
  getTokenData self token now' h1 = (Ok (scope_list scope, additionalData), h1).
Proof.
  intros Hkeep Hlive. rewrite (store_kept _ _ _ _ _ _ _ _ Hkeep). cbn [snd].
  rewrite getTokenData_eval, lookup_after_set, lookup_insert_eq.
  by rewrite (live_not_expired _ _ _ _ Hlive).
Qed.

(** X2 -- [store] then [contains]: a kept record is contained at any time up
    to and including its expiry; at any time after its expiry [contains]
    answers false and the table is what it was before the [store], without
    the token. *)
Theorem DictTokenStorage_store_contains {Client : Type} self token
    (client : Client) (scope additionalData : pyobj) (expireTime : option Z)
    now h :
  storable expireTime now = true ->
  let h1 := (store self (PyStr token) client scope additionalData expireTime now h).2 in
  (forall now', live expireTime now' = true -> contains self token now' h1 = (Ok true, h1))
  /\ (forall e now', expireTime = Some e -> e < now' ->
      (contains self token now' h1).1 = Ok false
      /\ cls_tokens (contains self token now' h1).2 = delete token (cls_tokens h)).
Proof.
  intros Hkeep. rewrite (store_kept _ _ _ _ _ _ _ _ Hkeep). cbn [snd]. split.
  - intros now' Hlive.
    rewrite contains_eval, lookup_after_set, lookup_insert_eq.
    by rewrite (live_not_expired _ _ _ _ Hlive).
  - intros e now' -> Hlate.
    rewrite contains_eval, lookup_after_set, lookup_insert_eq.
    unfold expired. cbn [DictTokenStorage.expireTime].
    assert (Hgt : (now' >? e) = true) by (rewrite Z.gtb_ltb; apply Z.ltb_lt; lia).
    rewrite Hgt. split; [reflexivity |].
    unfold purged, self_tokens. cbn.
    apply delete_insert_eq.
Qed.

(** X3 -- [store] then [hasAccess]: on a kept, unexpired record [hasAccess]
    returns true exactly for the requests all of whose items are in the
    stored scope list; in particular for the stored scope itself. *)
Theorem DictTokenStorage_store_hasAccess {Client : Type} self token
    (client : Client) (scope additionalData : pyobj) (expireTime : option Z)
    (request : list pyobj) now now' h :
  storable expireTime now = true ->
  live expireTime now' = true ->
  let h1 := (store self (PyStr token) client scope additionalData expireTime now h).2 in
  (exists b : bool,
     hasAccess self token request now' h1 = (Ok b, h1)
     /\ (b = true <-> forall item, item ∈ request -> item ∈ scope_list scope))
  /\ hasAccess self token (scope_list scope) now' h1 = (Ok true, h1).
Proof.
  intros Hkeep Hlive. rewrite (store_kept _ _ _ _ _ _ _ _ Hkeep). cbn [snd].
  rewrite !hasAccess_eval, lookup_after_set, lookup_insert_eq.
  rewrite (live_not_expired _ _ _ _ Hlive). cbn [DictTokenStorage.scope].
  split.
  - eexists. split; [reflexivity |]. rewrite forallb_forall. split.
    + intros Hall item Hin. apply py_in_elem_of, Hall. by apply list_elem_of_In.
    + intros Hall item Hin. apply py_in_elem_of, Hall. by apply list_elem_of_In.
  - f_equal. f_equal. apply forallb_forall. intros item Hin.
    apply py_in_elem_of. by apply list_elem_of_In.
Qed.

Lemma store_cases {Client : Type} self (token : string) (client : Client)
    (scope additionalData : pyobj) (expireTime : option Z) now h :
  store self (PyStr token) client scope additionalData expireTime now h = (Ok tt, h)
  \/ store self (PyStr token) client scope additionalData expireTime now h
     = (Ok tt,
        set_self_tokens self
          (<[token := mkRecord additionalData expireTime (scope_list scope)]>
             (cls_tokens h)) h).
Proof.
  unfold store. destruct expireTime as [e |]; [| by right].
  destruct (e <=? now); [by left | by right].
Qed.

(** X4 -- the last [store] wins: a kept [store] for a token leaves the same
    heap whether or not an earlier [store] for that token went before it, so
    nothing of the earlier record (scope, data, expiry) survives. *)
Theorem DictTokenStorage_store_overwrites {Client : Type} self token
    (client1 client2 : Client) (scope1 scope2 data1 data2 : pyobj)
    (expireTime1 expireTime2 : option Z) now1 now2 h :
  storable expireTime2 now2 = true ->
  let h1 := (store self (PyStr token) client1 scope1 data1 expireTime1 now1 h).2 in
  store self (PyStr token) client2 scope2 data2 expireTime2 now2 h1
  = store self (PyStr token) client2 scope2 data2 expireTime2 now2 h.
Proof.
  intros Hkeep. cbn zeta.
  rewrite !(store_kept _ _ _ _ _ _ _ _ Hkeep).
  destruct (store_cases self token client1 scope1 data1 expireTime1 now1 h)
    as [-> | ->]; [reflexivity |].
  cbn [snd]. unfold set_self_tokens. cbn. by rewrite insert_insert_eq.
Qed.

(** What the answer of each read depends on. *)
Lemma reads_depend_on_lookup self token (request : list pyobj) now h h' :
  cls_tokens h' !! token = cls_tokens h !! token ->
  (contains self token now h').1 = (contains self token now h).1
  /\ (hasAccess self token request now h').1 = (hasAccess self token request now h).1
  /\ (getTokenData self token now h').1 = (getTokenData self token now h).1.
Proof.
  intros Heq. rewrite !contains_eval, !hasAccess_eval, !getTokenData_eval, Heq.
  destruct (cls_tokens h !! token) as [r |]; [| done].
  by destruct (expired r now).
Qed.

(** X5 -- [store] touches one key: whatever its arguments and whether it
    returns or raises, the answers of [contains], [hasAccess] and
    [getTokenData] for any other token are what they were before. *)
Theorem DictTokenStorage_store_frame {Client : Type} self (token : pyobj)
    (client : Client) (scope additionalData : pyobj) (expireTime : option Z)
    (other : string) (request : list pyobj) now now' h :
  token <> PyStr other ->
  let h1 := (store self token client scope additionalData expireTime now h).2 in
  (contains self other now' h1).1 = (contains self other now' h).1
  /\ (hasAccess self other request now' h1).1 = (hasAccess self other request now' h).1
  /\ (getTokenData self other now' h1).1 = (getTokenData self other now' h).1.
Proof.
  intros Hne. cbn zeta. apply reads_depend_on_lookup.
  destruct token as [| tok | n | xs]; try reflexivity.
  destruct (store_cases self tok client scope additionalData expireTime now h)
    as [-> | ->]; [reflexivity |].
  cbn [snd]. rewrite lookup_after_set. apply lookup_insert_ne. congruence.
Qed.

Lemma contains_heap self token now h :
  (contains self token now h).2 = after_read self token now h.
Proof.
  rewrite contains_eval. unfold after_read.
  destruct (cls_tokens h !! token) as [r |]; [| done].
  by destruct (expired r now).
Qed.

Lemma hasAccess_heap self token (request : list pyobj) now h :
  (hasAccess self token request now h).2 = after_read self token now h.
Proof.
  rewrite hasAccess_eval. unfold after_read.
  destruct (cls_tokens h !! token) as [r |]; [| done].
  by destruct (expired r now).
Qed.

Lemma getTokenData_heap self token now h :
  (getTokenData self token now h).2 = after_read self token now h.
Proof.
  rewrite getTokenData_eval. unfold after_read.
  destruct (cls_tokens h !! token) as [r |]; [| done].
  by destruct (expired r now).
Qed.

Lemma after_read_lookup self token now h (other : string) :
  cls_tokens (after_read self token now h) !! other
  = match cls_tokens h !! token with
    | Some r =>
        if expired r now && bool_decide (other = token) then None
        else cls_tokens h !! other
    | None => cls_tokens h !! other
    end.
Proof.
  unfold after_read.
  destruct (cls_tokens h !! token) as [r |] eqn:Hlook; [| done].
  destruct (expired r now); [| done]. cbn [andb].
  unfold purged, self_tokens. rewrite lookup_after_set.
  case_bool_decide as Heq.
  - subst. apply lookup_delete_eq.
  - by apply lookup_delete_ne.
Qed.

(** X6 -- the three reads agree: at one time and on one heap, [contains]
    answers true exactly when [getTokenData] returns and exactly when
    [hasAccess] returns, it answers false exactly when they raise [KeyError],
    and all three leave the same heap behind. *)
Theorem DictTokenStorage_reads_agree self token (request : list pyobj) now h :
  (contains self token now h).2 = (getTokenData self token now h).2
  /\ (contains self token now h).2 = (hasAccess self token request now h).2
  /\ ((contains self token now h).1 = Ok true <->
      exists v, (getTokenData self token now h).1 = Ok v)
  /\ ((contains self token now h).1 = Ok true <->
      exists b, (hasAccess self token request now h).1 = Ok b)
  /\ ((contains self token now h).1 = Ok false <->
      (getTokenData self token now h).1 = Raise KeyError)
  /\ ((contains self token now h).1 = Ok false <->
      (hasAccess self token request now h).1 = Raise KeyError).
Proof.
  rewrite contains_heap, getTokenData_heap, hasAccess_heap.
  rewrite contains_eval, getTokenData_eval, hasAccess_eval.
  split; [reflexivity |]. split; [reflexivity |].
  destruct (cls_tokens h !! token) as [r |];
    [destruct (expired r now) |]; cbn [fst];
    (split; [| split; [| split]]); split;
    try done; try (intros [? [=]]); try (intros _; by eexists).
Qed.

(** X7 -- a read never adds a record and never touches another token: after
    [contains], [hasAccess] or [getTokenData] for a token, the table is a
    sub-map of what it was, and every other token still maps to what it
    mapped to. *)
Theorem DictTokenStorage_reads_only_purge self token (request : list pyobj) now h :
  Forall (fun h' =>
            cls_tokens h' ⊆ cls_tokens h
            /\ (forall other, other <> token ->
                cls_tokens h' !! other = cls_tokens h !! other)
            /\ next_id h' = next_id h)
    [ (contains self token now h).2;
      (hasAccess self token request now h).2;
      (getTokenData self token now h).2 ].
Proof.
  rewrite contains_heap, hasAccess_heap, getTokenData_heap.
  assert (Hone :
    cls_tokens (after_read self token now h) ⊆ cls_tokens h
    /\ (forall other, other <> token ->
        cls_tokens (after_read self token now h) !! other = cls_tokens h !! other)
    /\ next_id (after_read self token now h) = next_id h);
    [| repeat (apply List.Forall_cons; [exact Hone |]); apply List.Forall_nil].
  split; [| split].
  - apply map_subseteq_spec. intros other r'. rewrite after_read_lookup.
    destruct (cls_tokens h !! token) as [r |]; [| done].
    destruct (expired r now && bool_decide (other = token)); [discriminate | done].
  - intros other Hne. rewrite after_read_lookup.
    destruct (cls_tokens h !! token) as [r |]; [| done].
    rewrite (bool_decide_eq_false_2 _ Hne). by rewrite andb_false_r.
  - unfold after_read. destruct (cls_tokens h !! token) as [r |]; [| done].
    by destruct (expired r now).
Qed.

(** X8 -- a negative answer is final: once [contains] has answered false for
    a token, every later read of that token on the resulting heap fails --
    [contains] answers false, [hasAccess] and [getTokenData] raise
    [KeyError] -- whatever the clock shows then, and changes nothing. *)
Theorem DictTokenStorage_contains_false_is_final self token
    (request : list pyobj) now now' h :
  (contains self token now h).1 = Ok false ->
  let h1 := (contains self token now h).2 in
  contains self token now' h1 = (Ok false, h1)
  /\ hasAccess self token request now' h1 = (Raise KeyError, h1)
  /\ getTokenData self token now' h1 = (Raise KeyError, h1).
Proof.
  intros Hfalse. cbn zeta.
  assert (Hgone : cls_tokens (contains self token now h).2 !! token = None).
  { rewrite contains_heap, after_read_lookup.
    rewrite contains_eval in Hfalse.
    destruct (cls_tokens h !! token) as [r |]; [| done].
    destruct (expired r now); [| discriminate Hfalse].
    by rewrite bool_decide_eq_true_2. }
  rewrite contains_eval, hasAccess_eval, getTokenData_eval. by rewrite Hgone.
Qed.

(** X9 -- a request is granted item by item: on a present, unexpired record,
    [hasAccess] for the concatenation of two requests returns the
    conjunction of what it returns for each, so neither the order nor the
    repetition of items matters. *)
Theorem DictTokenStorage_hasAccess_app self token (request1 request2 : list pyobj)
    now h r :
  cls_tokens h !! token = Some r ->
  expired r now = false ->
  exists b1 b2 : bool,
    hasAccess self token request1 now h = (Ok b1, h)
    /\ hasAccess self token request2 now h = (Ok b2, h)
    /\ hasAccess self token (request1 ++ request2) now h = (Ok (b1 && b2), h).
Proof.
  intros Hlook Hlive. rewrite !hasAccess_eval, Hlook, Hlive.
  do 2 eexists. split; [reflexivity |]. split; [reflexivity |].
  by rewrite forallb_app.
Qed.

End DictTokenStorageComposition.

Lemma DictTokenStorage_store_getTokenData_witness :
  Notions.storable (Some 100) 0 = true
  /\ Notions.live (Some 100) 100 = true
  /\ DictTokenStorage.getTokenData Fixtures._AUTH_TOKEN_STORAGE "token" 100
       Fixtures.heap_with_expiring_token
     = (Ok ([PyStr "All"; PyStr "scope"], PyStr "data"),
        Fixtures.heap_with_expiring_token).
Proof.
  assert (Hkeep : Notions.storable (Some 100) 0 = true) by reflexivity.
  assert (Hlive : Notions.live (Some 100) 100 = true) by reflexivity.
  split; [exact Hkeep | split; [exact Hlive |]].
  exact (DictTokenStorage_store_getTokenData Fixtures._AUTH_TOKEN_STORAGE "token"
           Fixtures.test_client Fixtures._VALID_SCOPE (PyStr "data") (Some 100)
           0 100 Fixtures.heap_after_setup Hkeep Hlive).
Defined.

Lemma DictTokenStorage_store_contains_witness :
  Notions.storable (Some 100) 0 = true
  /\ DictTokenStorage.contains Fixtures._AUTH_TOKEN_STORAGE "token" 100
       Fixtures.heap_with_expiring_token
     = (Ok true, Fixtures.heap_with_expiring_token)
  /\ (DictTokenStorage.contains Fixtures._AUTH_TOKEN_STORAGE "token" 101
        Fixtures.heap_with_expiring_token).1 = Ok false.
Proof.
  assert (Hkeep : Notions.storable (Some 100) 0 = true) by reflexivity.
  destruct (DictTokenStorage_store_contains Fixtures._AUTH_TOKEN_STORAGE "token"
              Fixtures.test_client Fixtures._VALID_SCOPE (PyStr "data") (Some 100)
              0 Fixtures.heap_after_setup Hkeep) as [Hlive Hlate].
  split; [exact Hkeep |]. split.
  - apply (Hlive 100). reflexivity.
  - apply (Hlate 100 101 eq_refl). lia.
Defined.

Lemma DictTokenStorage_store_hasAccess_witness :
  Notions.storable None 0 = true
  /\ Notions.live None 7 = true
  /\ DictTokenStorage.hasAccess Fixtures._REFRESH_TOKEN_STORAGE "refreshToken"
       [PyStr "All"; PyStr "scope"] 7 (Fixtures.heap_after_store 0)
     = (Ok true, Fixtures.heap_after_store 0).
Proof.
  assert (Hkeep : Notions.storable None 0 = true) by reflexivity.
  assert (Hlive : Notions.live None 7 = true) by reflexivity.
  split; [exact Hkeep | split; [exact Hlive |]].
  exact (proj2 (DictTokenStorage_store_hasAccess Fixtures._REFRESH_TOKEN_STORAGE
                  "refreshToken" Fixtures.test_client Fixtures._VALID_SCOPE PyNone
                  None [PyStr "other"] 0 7 Fixtures.heap_after_setup Hkeep Hlive)).
Defined.

Lemma DictTokenStorage_store_overwrites_witness :
  Notions.storable None 5 = true
  /\ DictTokenStorage.store Fixtures._AUTH_TOKEN_STORAGE (PyStr "token")
       Fixtures.new_client (PyStr "bare") PyNone None 5
       Fixtures.heap_with_expiring_token
     = DictTokenStorage.store Fixtures._AUTH_TOKEN_STORAGE (PyStr "token")
         Fixtures.new_client (PyStr "bare") PyNone None 5 Fixtures.heap_after_setup.
Proof.
  assert (Hkeep : Notions.storable None 5 = true) by reflexivity.
  split; [exact Hkeep |].
  exact (DictTokenStorage_store_overwrites Fixtures._AUTH_TOKEN_STORAGE "token"
           Fixtures.test_client Fixtures.new_client Fixtures._VALID_SCOPE
           (PyStr "bare") (PyStr "data") PyNone (Some 100) None 0 5
           Fixtures.heap_after_setup Hkeep).
Defined.

Lemma DictTokenStorage_store_frame_witness :
  PyStr "token" <> PyStr "refreshToken"
  /\ (DictTokenStorage.contains Fixtures._AUTH_TOKEN_STORAGE "refreshToken" 3
        (DictTokenStorage.store Fixtures._AUTH_TOKEN_STORAGE (PyStr "token")
           Fixtures.test_client Fixtures._VALID_SCOPE (PyStr "data") (Some 100) 1
           (Fixtures.heap_after_store 0)).2).1
     = (DictTokenStorage.contains Fixtures._AUTH_TOKEN_STORAGE "refreshToken" 3
          (Fixtures.heap_after_store 0)).1.
Proof.
  assert (Hne : PyStr "token" <> PyStr "refreshToken") by discriminate.
  split; [exact Hne |].
  exact (proj1 (DictTokenStorage_store_frame Fixtures._AUTH_TOKEN_STORAGE
                  (PyStr "token") Fixtures.test_client Fixtures._VALID_SCOPE
                  (PyStr "data") (Some 100) "refreshToken" [] 1 3
                  (Fixtures.heap_after_store 0) Hne)).
Defined.

Lemma DictTokenStorage_contains_false_is_final_witness :
  (DictTokenStorage.contains Fixtures._AUTH_TOKEN_STORAGE "token" 101
     Fixtures.heap_with_expiring_token).1 = Ok false
  /\ (DictTokenStorage.getTokenData Fixtures._AUTH_TOKEN_STORAGE "token" 50
        (DictTokenStorage.contains Fixtures._AUTH_TOKEN_STORAGE "token" 101
           Fixtures.heap_with_expiring_token).2).1
     = Raise KeyError.
Proof.
  assert (Hfalse : (DictTokenStorage.contains Fixtures._AUTH_TOKEN_STORAGE "token"
                      101 Fixtures.heap_with_expiring_token).1 = Ok false)
    by reflexivity.
  split; [exact Hfalse |].
  destruct (DictTokenStorage_contains_false_is_final Fixtures._AUTH_TOKEN_STORAGE
              "token" [] 101 50 Fixtures.heap_with_expiring_token Hfalse)
    as (_ & _ & Hdata).
  by rewrite Hdata.
Defined.

Lemma DictTokenStorage_hasAccess_app_witness :
  DictTokenStorage.cls_tokens Fixtures.heap_with_expiring_token !! "token"
    = Some (DictTokenStorage.mkRecord (PyStr "data") (Some 100)
              [PyStr "All"; PyStr "scope"])
  /\ exists b1 b2 : bool,
      DictTokenStorage.hasAccess Fixtures._AUTH_TOKEN_STORAGE "token"
        ([PyStr "All"] ++ [PyStr "admin"]) 9 Fixtures.heap_with_expiring_token
      = (Ok (b1 && b2), Fixtures.heap_with_expiring_token).
Proof.
  assert (Hlook :
    DictTokenStorage.cls_tokens Fixtures.heap_with_expiring_token !! "token"
    = Some (DictTokenStorage.mkRecord (PyStr "data") (Some 100)
              [PyStr "All"; PyStr "scope"])) by reflexivity.
  split; [exact Hlook |].
  destruct (DictTokenStorage_hasAccess_app Fixtures._AUTH_TOKEN_STORAGE "token"
              [PyStr "All"] [PyStr "admin"] 9 Fixtures.heap_with_expiring_token _
              Hlook eq_refl) as (b1 & b2 & _ & _ & Happ).
  by exists b1, b2.
Defined.

(** ** ConfigParserClientStorage: what [addClient] and [getClient] touch *)

Section ClientStorageComposition.

Import Clients ConfigParserClientStorage Notions.

Variable value : ClientAuthType -> Z.
Variable int_of_text : string -> option Z.

Implicit Types (st : Storage) (c : Client).

Lemma addClient_sets_state c (os : os_outcome) st (d : gmap string pyobj) :
  RawConfigParser._sections (_configParser st) !! ("client_" +:+ id c) = Some d ->
  (let! _ := update_parser (fun p =>
               RawConfigParser.set p ("client_" +:+ id c) "auth_type"
                 (PyInt (value (authType c)))) in
   let! _ := update_parser (fun p =>
               RawConfigParser.set p ("client_" +:+ id c) "auth_token" (authToken c)) in
   let! _ := update_parser (fun p =>
               RawConfigParser.set p ("client_" +:+ id c) "redirect_uris"
                 (PyStr (PyStr.join " " (redirectUris c)))) in
   write_file os) st
  = let p' := RawConfigParser.mk
                (<["client_" +:+ id c := client_section value c d]>
                   (RawConfigParser._sections (_configParser st)))
                (RawConfigParser._defaults (_configParser st)) in
    (os_result os,
     mkStorage p' (path st) (match os with
        | Written => Some p'
        | FailsBeforeOpen _ => file st
        | FailsAfterOpen _ => None
        end)).
Proof.
  intros Hlook.
  pose proof (sectionName_not_empty (id c)) as Hne.
  pose proof (sectionName_not_default (id c)) as Hnd.
  unfold Eff.bind at 1.
  rewrite (update_set _ _ _ _ _ Hne Hnd Hlook).
  unfold Eff.bind at 1.
  erewrite update_set; [| exact Hne | exact Hnd | apply lookup_insert_eq].
  unfold Eff.bind at 1.
  erewrite update_set; [| exact Hne | exact Hnd | apply lookup_insert_eq].
  cbn [_configParser path file RawConfigParser._sections RawConfigParser._defaults].
  rewrite !insert_insert_eq.
  change (RawConfigParser.optionxform "auth_type") with "auth_type".
  change (RawConfigParser.optionxform "auth_token") with "auth_token".
  change (RawConfigParser.optionxform "redirect_uris") with "redirect_uris".
  unfold write_file, client_section. cbn zeta.
  by destruct os.
Qed.

(** [addClient] in closed form. *)
Lemma addClient_eval c (os : os_outcome) st :
  addClient value c os st
  = (os_result os,
     mkStorage (parser_with_client value c (_configParser st)) (path st)
       (match os with
        | Written => Some (parser_with_client value c (_configParser st))
        | FailsBeforeOpen _ => file st
        | FailsAfterOpen _ => None
        end)).
Proof.
  unfold addClient, parser_with_client. cbn zeta.
  unfold Eff.bind at 1. unfold read_parser at 1.
  destruct (RawConfigParser._sections (_configParser st) !! ("client_" +:+ id c))
    as [d |] eqn:Hlook.
  - assert (Hhas : RawConfigParser.has_section (_configParser st)
                     ("client_" +:+ id c) = true).
    { apply has_section_lookup. by rewrite Hlook. }
    rewrite Hhas. cbn [negb]. unfold Eff.bind at 1. unfold Eff.ret at 1.
    by rewrite (addClient_sets_state c os st d Hlook).
  - assert (Hhas : RawConfigParser.has_section (_configParser st)
                     ("client_" +:+ id c) = false).
    { apply not_true_iff_false. rewrite has_section_lookup, Hlook.
      by intros [? [=]]. }
    rewrite Hhas. cbn [negb]. unfold Eff.bind at 1. unfold update_parser at 1.
    unfold RawConfigParser.add_section.
    rewrite (bool_decide_eq_false_2 _ (sectionName_not_default (id c))), Hhas.
    erewrite addClient_sets_state; [| cbn; apply lookup_insert_eq].
    cbn [_configParser path file RawConfigParser._sections
         RawConfigParser._defaults default from_option].
    by rewrite insert_insert_eq.
Qed.

(** X10 -- what [addClient] does, for any client and any storage: it raises
    nothing but what the operating system raises for the write (it checks
    nothing about the client); in the parser it sets the three options of
    the client's section and leaves every other option, every other section
    and the defaults as they were, and it does so whether the write succeeds
    or not; the file holds a complete dump of the new parser state after a
    successful write, is as it was when [os.makedirs] or [open] raises, and
    holds no complete dump when the write raises after [open] has emptied
    the file. *)
Theorem ConfigParserClientStorage_addClient_state c (os : os_outcome) st :
  addClient value c os st
  = (os_result os,
     mkStorage (parser_with_client value c (_configParser st)) (path st)
       (match os with
        | Written => Some (parser_with_client value c (_configParser st))
        | FailsBeforeOpen _ => file st
        | FailsAfterOpen _ => None
        end)).
Proof. apply addClient_eval. Qed.

(** X11 -- [getClient] only reads: whatever it returns or raises, the storage
    (parser, path and file) is afterwards what it was. *)
Theorem ConfigParserClientStorage_getClient_readonly (clientId : string) st :
  (getClient value int_of_text clientId st).2 = st.
Proof.
  unfold getClient, Eff.bind, Eff.raise, read_parser, lift. cbn beta iota zeta.
  repeat (match goal with
          | |- context [match ?x with _ => _ end] => destruct x eqn:?
          | |- context [if ?x then _ else _] => destruct x eqn:?
          end; cbn [fst snd negb]); reflexivity.
Qed.

Lemma get_depends (p p' : RawConfigParser.t) (section option : string) :
  RawConfigParser._sections p' !! section = RawConfigParser._sections p !! section ->
  RawConfigParser._defaults p' = RawConfigParser._defaults p ->
  RawConfigParser.get p' section option = RawConfigParser.get p section option.
Proof. intros Hs Hd. unfold RawConfigParser.get. by rewrite Hs, Hd. Qed.

(** The answer of [getClient] depends on the section of the identifier and on
    the defaults, and on nothing else in the storage. *)
Lemma getClient_depends (clientId : string) st st' :
  RawConfigParser._sections (_configParser st') !! ("client_" +:+ clientId)
  = RawConfigParser._sections (_configParser st) !! ("client_" +:+ clientId) ->
  RawConfigParser._defaults (_configParser st')
  = RawConfigParser._defaults (_configParser st) ->
  (getClient value int_of_text clientId st').1
  = (getClient value int_of_text clientId st).1.
Proof.
  intros Hs Hd.
  unfold getClient, Eff.bind, Eff.raise, read_parser, lift,
    RawConfigParser.getint, RawConfigParser.has_section. cbn beta iota zeta.
  rewrite Hs.
  destruct (negb _); cbn beta; [reflexivity |].
  rewrite !(get_depends _ _ _ _ Hs Hd).
  repeat (match goal with
          | |- context [match ?x with _ => _ end] => destruct x eqn:?
          | |- context [if ?x then _ else _] => destruct x eqn:?
          end; cbn [fst snd negb]); reflexivity.
Qed.

Lemma sectionName_inj (a b : string) : "client_" +:+ a = "client_" +:+ b -> a = b.
Proof. apply (inj (String.app "client_")). Qed.

(** X12 -- [addClient] touches one client: for every identifier other than
    the client's, [getClient] answers after [addClient] what it answered
    before, whether the write succeeded or not. *)
Theorem ConfigParserClientStorage_addClient_frame c (os : os_outcome)
    (clientId : string) st :
  clientId <> id c ->
  (getClient value int_of_text clientId (addClient value c os st).2).1
  = (getClient value int_of_text clientId st).1.
Proof.
  intros Hne. rewrite addClient_eval. cbn [snd].
  apply getClient_depends; [| reflexivity].
  unfold parser_with_client. cbn.
  apply lookup_insert_ne. intros Heq. apply sectionName_inj in Heq. congruence.
Qed.

Lemma client_section_idemp c (d : gmap string pyobj) :
  client_section value c (client_section value c d) = client_section value c d.
Proof.
  unfold client_section. apply map_eq. intros k.
  destruct (decide (k = "redirect_uris")) as [-> | H1];
    [by rewrite !lookup_insert_eq |].
  rewrite !(lookup_insert_ne _ "redirect_uris") by done.
  destruct (decide (k = "auth_token")) as [-> | H2];
    [by rewrite !lookup_insert_eq |].
  rewrite !(lookup_insert_ne _ "auth_token") by done.
  destruct (decide (k = "auth_type")) as [-> | H3];
    [by rewrite !lookup_insert_eq |].
  rewrite !(lookup_insert_ne _ "auth_type") by done.
  rewrite !(lookup_insert_ne _ "redirect_uris") by done.
  rewrite !(lookup_insert_ne _ "auth_token") by done.
  by rewrite !(lookup_insert_ne _ "auth_type") by done.
Qed.

(** X13 -- [addClient] is idempotent: adding the same client a second time
    leaves exactly the storage the first (successful) addition left. *)
Theorem ConfigParserClientStorage_addClient_idempotent c st :
  addClient value c Written (addClient value c Written st).2
  = (Ok tt, (addClient value c Written st).2).
Proof.
  rewrite !addClient_eval. cbn [snd _configParser path file].
  assert (Hp : parser_with_client value c (parser_with_client value c (_configParser st))
               = parser_with_client value c (_configParser st)).
  { unfold parser_with_client.
    cbn [RawConfigParser._sections RawConfigParser._defaults].
    rewrite lookup_insert_eq.
    change (default ∅ (Some ?d)) with d.
    by rewrite client_section_idemp, insert_insert_eq. }
  by rewrite Hp.
Qed.

Lemma no_whitespace_app (a b : string) :
  PyStr.no_whitespace (a +:+ b) = PyStr.no_whitespace a && PyStr.no_whitespace b.
Proof.
  induction a as [| x a IH]; [reflexivity |].
  rewrite append_cons. cbn [PyStr.no_whitespace]. by rewrite IH, andb_assoc.
Qed.

(** The words [split] yields are non-empty and free of whitespace. *)
Lemma split_go_words (s word : string) :
  PyStr.no_whitespace word = true ->
  Forall (fun w => w <> "" /\ PyStr.no_whitespace w = true) (PyStr.split_go s word).
Proof.
  revert word. induction s as [| x s IH]; intros word Hword; cbn [PyStr.split_go].
  - case_bool_decide; [constructor | by repeat constructor].
  - destruct (PyStr.isspace x) eqn:Hx.
    + case_bool_decide; [by apply IH |].
      constructor; [done | by apply IH].
    + apply IH. rewrite no_whitespace_app, Hword. cbn. by rewrite Hx.
Qed.

(** X14 -- what [getClient] can return: a client that carries the identifier
    asked for, passes the validation of the [Client] constructor, and has
    only non-empty redirect URIs without whitespace; and it returns one only
    if the parser has a section for the identifier. *)
Theorem ConfigParserClientStorage_getClient_returns (clientId : string) st c st' :
  getClient value int_of_text clientId st = (Ok c, st') ->
  id c = clientId
  /\ Clients.valid c = true
  /\ Forall (fun u => u <> "" /\ PyStr.no_whitespace u = true) (redirectUris c)
  /\ is_Some (RawConfigParser._sections (_configParser st) !! ("client_" +:+ clientId))
  /\ st' = st.
Proof.
  unfold getClient, Eff.bind, Eff.raise, read_parser, lift. cbn beta iota zeta.
  destruct (RawConfigParser.has_section _ _) eqn:Hhas; cbn [negb];
    [| discriminate].
  apply has_section_lookup in Hhas.
  destruct (RawConfigParser.get _ _ "redirect_uris") as [uris | ?];
    [| discriminate].
  destruct uris as [| s | |]; try discriminate.
  destruct (RawConfigParser.getint _ _ _ _) as [n | ?]; [| discriminate].
  destruct (ClientAuthType_of_value value n) as [kind | ?]; [| discriminate].
  destruct (RawConfigParser.get _ _ "auth_token") as [token | ?];
    [| discriminate].
  unfold Clients.__init__.
  destruct (forallb validRedirectUri (PyStr.split s)) eqn:Hvalid;
    [| discriminate].
  intros [= <- <-]. cbn [id redirectUris].
  split; [reflexivity |]. split; [exact Hvalid |].
  split; [by apply split_go_words |]. split; [exact Hhas | reflexivity].
Qed.

(** X15 -- an incomplete section is not reported as a missing client: when
    the section of the identifier exists but neither it nor the defaults
    have the option [redirect_uris], [getClient] raises [NoOptionError], not
    [KeyError]. *)
Theorem ConfigParserClientStorage_getClient_incomplete (clientId : string) st
    (d : gmap string pyobj) :
  RawConfigParser._sections (_configParser st) !! ("client_" +:+ clientId) = Some d ->
  d !! "redirect_uris" = None ->
  RawConfigParser._defaults (_configParser st) !! "redirect_uris" = None ->
  getClient value int_of_text clientId st = (Raise NoOptionError, st).
Proof.
  intros Hlook Hd Hdef.
  unfold getClient, Eff.bind, Eff.raise, read_parser, lift. cbn beta iota zeta.
  assert (Hhas : RawConfigParser.has_section (_configParser st)
                   ("client_" +:+ clientId) = true).
  { apply has_section_lookup. by rewrite Hlook. }
  rewrite Hhas. cbn [negb].
  unfold RawConfigParser.get at 1. rewrite Hlook.
  change (RawConfigParser.optionxform "redirect_uris") with "redirect_uris".
  by rewrite Hd, Hdef.
Qed.

End ClientStorageComposition.

Lemma ConfigParserClientStorage_addClient_frame_witness :
  "newClientId" <> Clients.id Fixtures.spaced_client
  /\ (ConfigParserClientStorage.getClient Fixtures.auth_type_value Fixtures.decimal
        "newClientId"
        (ConfigParserClientStorage.addClient Fixtures.auth_type_value
           Fixtures.spaced_client ConfigParserClientStorage.Written
           (ConfigParserClientStorage.addClient Fixtures.auth_type_value
              Fixtures.new_client ConfigParserClientStorage.Written Fixtures.empty_storage).2).2).1
     = (ConfigParserClientStorage.getClient Fixtures.auth_type_value Fixtures.decimal
          "newClientId"
          (ConfigParserClientStorage.addClient Fixtures.auth_type_value
             Fixtures.new_client ConfigParserClientStorage.Written Fixtures.empty_storage).2).1.
Proof.
  assert (Hne : "newClientId" <> Clients.id Fixtures.spaced_client) by discriminate.
  split; [exact Hne |].
  exact (ConfigParserClientStorage_addClient_frame Fixtures.auth_type_value
           Fixtures.decimal Fixtures.spaced_client ConfigParserClientStorage.Written
           "newClientId" _ Hne).
Defined.

Lemma ConfigParserClientStorage_getClient_returns_witness :
  ConfigParserClientStorage.getClient Fixtures.auth_type_value Fixtures.decimal
    "spaced"
    (ConfigParserClientStorage.addClient Fixtures.auth_type_value
       Fixtures.spaced_client ConfigParserClientStorage.Written Fixtures.empty_storage).2
  = (Ok (Clients.mkClient "spaced"
           ["https://a.nonexistent/x"; "https://b.nonexistent/y"]
           Clients.PUBLIC PyNone),
     (ConfigParserClientStorage.addClient Fixtures.auth_type_value
        Fixtures.spaced_client ConfigParserClientStorage.Written Fixtures.empty_storage).2)
  /\ Clients.valid
       (Clients.mkClient "spaced"
          ["https://a.nonexistent/x"; "https://b.nonexistent/y"]
          Clients.PUBLIC PyNone) = true.
Proof.
  assert (Hget :
    ConfigParserClientStorage.getClient Fixtures.auth_type_value Fixtures.decimal
      "spaced"
      (ConfigParserClientStorage.addClient Fixtures.auth_type_value
         Fixtures.spaced_client ConfigParserClientStorage.Written Fixtures.empty_storage).2
    = (Ok (Clients.mkClient "spaced"
             ["https://a.nonexistent/x"; "https://b.nonexistent/y"]
             Clients.PUBLIC PyNone),
       (ConfigParserClientStorage.addClient Fixtures.auth_type_value
          Fixtures.spaced_client ConfigParserClientStorage.Written Fixtures.empty_storage).2))
    by (vm_compute; reflexivity).
  split; [exact Hget |].
  exact (proj1 (proj2 (ConfigParserClientStorage_getClient_returns
                         Fixtures.auth_type_value Fixtures.decimal "spaced" _ _ _
                         Hget))).
Defined.

Lemma ConfigParserClientStorage_getClient_incomplete_witness :
  ConfigParserClientStorage.getClient Fixtures.auth_type_value Fixtures.decimal
    "broken" Fixtures.incomplete_storage
  = (Raise NoOptionError, Fixtures.incomplete_storage).
Proof.
  apply (ConfigParserClientStorage_getClient_incomplete Fixtures.auth_type_value
           Fixtures.decimal "broken" Fixtures.incomplete_storage
           {[ "auth_type" := PyStr "1" ]}); reflexivity.
Defined.

(** ** UUIDTokenFactory: the digits of a token *)

Section UUIDDigits.

Import UUIDTokenFactory Notions.

Lemma length_fixed_hex (n : nat) (v : Z) : length (fixed_hex n v) = n.
Proof.
  revert v. induction n as [| n IH]; intros v; [reflexivity |].
  cbn [fixed_hex]. rewrite length_app, IH. simpl. lia.
Qed.

Lemma fixed_hex_zero (n : nat) : fixed_hex n 0 = repeat "0"%char n.
Proof.
  induction n as [| n IH]; [reflexivity |].
  cbn [fixed_hex]. change (0 / 16) with 0. rewrite IH.
  change (hexdigit (0 mod 16)) with "0"%char.
  by rewrite <- List.repeat_cons.
Qed.

(** Digits beyond the size of the number are zeros. *)
Lemma fixed_hex_pad (k m : nat) (v : Z) :
  0 <= v < 16 ^ Z.of_nat k ->
  fixed_hex (m + k) v = repeat "0"%char m ++ fixed_hex k v.
Proof.
  revert v. induction k as [| k IH]; intros v Hv.
  - change (16 ^ Z.of_nat 0) with 1 in Hv. assert (v = 0) as -> by lia.
    rewrite Nat.add_0_r, fixed_hex_zero. by rewrite app_nil_r.
  - rewrite Nat.add_succ_r. cbn [fixed_hex].
    rewrite Nat2Z.inj_succ, Z.pow_succ_r in Hv by lia.
    rewrite IH, app_assoc; [reflexivity |].
    split; [apply Z.div_pos; lia | apply Z.div_lt_upper_bound; lia].
Qed.

(** The digits [format_x_go] produces are those of a fixed-width rendering of
    some width within the fuel. *)
Lemma format_x_go_fixed (fuel : nat) (v : Z) (acc : list ascii) :
  (1 <= fuel)%nat -> 0 <= v < 2 ^ Z.of_nat fuel ->
  exists k : nat,
    (1 <= k <= fuel)%nat /\ v < 16 ^ Z.of_nat k
    /\ format_x_go fuel v acc = fixed_hex k v ++ acc.
Proof.
  revert v acc. induction fuel as [| fuel IH]; intros v acc Hfuel Hv; [lia |].
  cbn [format_x_go].
  destruct (v / 16 =? 0) eqn:Hq.
  - apply Z.eqb_eq in Hq. exists 1%nat.
    assert (v < 16).
    { pose proof (Z.div_mod v 16 ltac:(lia)) as Hdm.
      pose proof (Z.mod_pos_bound v 16 ltac:(lia)). lia. }
    split; [lia |]. split; [change (16 ^ Z.of_nat 1) with 16; lia | reflexivity].
  - apply Z.eqb_neq in Hq.
    assert (Hbig : 16 <= v).
    { destruct (Z_lt_le_dec v 16) as [Hlt | Hge]; [| exact Hge].
      exfalso. apply Hq. apply Z.div_small. lia. }
    rewrite Nat2Z.inj_succ, Z.pow_succ_r in Hv by lia.
    destruct fuel as [| fuel'].
    { change (2 ^ Z.of_nat 0) with 1 in Hv. lia. }
    assert (Hpos : 0 < 2 ^ Z.of_nat (S fuel')) by (apply Z.pow_pos_nonneg; lia).
    destruct (IH (v / 16) (hexdigit (v mod 16) :: acc) ltac:(lia))
      as (k & Hk & Hlt & Hgo).
    { split; [apply Z.div_pos; lia | apply Z.div_lt_upper_bound; lia]. }
    exists (S k). split; [lia |]. split.
    + rewrite Nat2Z.inj_succ, Z.pow_succ_r by lia.
      pose proof (Z.div_mod v 16 ltac:(lia)) as Hdm.
      pose proof (Z.mod_pos_bound v 16 ltac:(lia)). lia.
    + rewrite Hgo. cbn [fixed_hex]. by rewrite <- app_assoc.
Qed.

(** On 128-bit values ['%032x'] is the fixed-width rendering. *)
Lemma format_032x_fixed (v : Z) :
  0 <= v < 2 ^ 128 -> format_032x v = fixed_hex 32 v.
Proof.
  intros Hv. unfold format_032x, format_x.
  pose proof (format_x_go_length (S (Z.to_nat (Z.log2 v))) v [] 32 ltac:(lia) Hv)
    as Hlen.
  destruct (format_x_go_fixed (S (Z.to_nat (Z.log2 v))) v [] ltac:(lia))
    as (k & Hk & Hlt & Hgo).
  { split; [lia |]. rewrite Nat2Z.inj_succ, Z2Nat.id by apply Z.log2_nonneg.
    destruct (Z.eq_dec v 0) as [-> | Hne]; [by vm_compute |].
    apply Z.log2_spec. lia. }
  rewrite Hgo, app_nil_r in *. rewrite length_fixed_hex in *.
  cbn [length] in Hlen.
  replace 32%nat with ((32 - k) + k)%nat at 2 by lia.
  symmetry. apply fixed_hex_pad. lia.
Qed.

(** The digit at each position. *)
Lemma fixed_hex_nth (n : nat) (v : Z) (i : nat) :
  (i < n)%nat ->
  nth i (fixed_hex n v) "0"%char
  = hexdigit ((v / 16 ^ Z.of_nat (n - 1 - i)) mod 16).
Proof.
  revert v i. induction n as [| n IH]; intros v i Hi; [lia |].
  cbn [fixed_hex].
  destruct (decide (i = n)) as [-> | Hne].
  - rewrite app_nth2 by (rewrite length_fixed_hex; lia).
    rewrite length_fixed_hex.
    replace (S n - 1 - n)%nat with 0%nat by lia.
    replace (n - n)%nat with 0%nat by lia.
    change (16 ^ Z.of_nat 0) with 1. by rewrite Z.div_1_r.
  - rewrite app_nth1 by (rewrite length_fixed_hex; lia).
    rewrite IH by lia.
    replace (S n - 1 - i)%nat with (S (n - 1 - i)) by lia.
    rewrite Nat2Z.inj_succ, Z.pow_succ_r by lia.
    rewrite Z.div_div by (try apply Z.pow_pos_nonneg; lia).
    reflexivity.
Qed.

(** A four-bit number from its bits. *)
Lemma nibble_bits (y : Z) :
  0 <= y < 16 ->
  y = Z.b2z (Z.testbit y 0) + 2 * Z.b2z (Z.testbit y 1)
      + 4 * Z.b2z (Z.testbit y 2) + 8 * Z.b2z (Z.testbit y 3).
Proof.
  intros Hy.
  assert (Hcases : y = 0 \/ y = 1 \/ y = 2 \/ y = 3 \/ y = 4 \/ y = 5 \/ y = 6
                   \/ y = 7 \/ y = 8 \/ y = 9 \/ y = 10 \/ y = 11 \/ y = 12
                   \/ y = 13 \/ y = 14 \/ y = 15) by lia.
  repeat (destruct Hcases as [-> | Hcases]; [reflexivity |]). by subst.
Qed.

(** The bits of the hexadecimal digit of weight [16^j]. *)
Lemma digit_testbit (u : Z) (j i : Z) :
  0 <= j -> 0 <= i < 4 ->
  Z.testbit ((u / 16 ^ j) mod 16) i = Z.testbit u (i + 4 * j).
Proof.
  intros Hj Hi.
  replace (16 ^ j) with (2 ^ (4 * j))
    by (rewrite Z.pow_mul_r by lia; reflexivity).
  change 16 with (2 ^ 4).
  rewrite Z.mod_pow2_bits_low by lia.
  by rewrite Z.div_pow2_bits by lia.
Qed.

(** The bits [UUID] fixes: the version in the bits 76 to 79, the variant in
    the bits 62 and 63. *)
Lemma UUID_fixed_bits (bs : list Byte.byte) (u : Z) :
  UUID bs 4 = Ok u ->
  Z.testbit u 76 = false /\ Z.testbit u 77 = false
  /\ Z.testbit u 78 = true /\ Z.testbit u 79 = false
  /\ Z.testbit u 62 = false /\ Z.testbit u 63 = true.
Proof.
  unfold UUID. destruct (negb _); [discriminate |]. intros [= <-].
  set (x := int_from_bytes bs).
  repeat split;
    rewrite Z.lor_spec, Z.land_spec, Z.lor_spec, Z.land_spec;
    match goal with
    | |- context [Z.testbit x ?n] => destruct (Z.testbit x n)
    end; reflexivity.
Qed.

(** X16 -- every token is a version-4 identifier of the standard variant:
    whatever the arguments and the entropy, the character at index 14 of the
    token is ['4'] and the character at index 19 is one of ['8'], ['9'],
    ['a'], ['b']. *)
Theorem UUIDTokenFactory_generateToken_version {Client : Type}
    (lifetime : pyobj) (client : Client) (scope additionalData : pyobj)
    (entropy : nat -> Byte.byte) :
  exists (token : string) (variant : ascii),
    generateToken lifetime client scope additionalData entropy = Ok token
    /\ String.get 14 token = Some "4"%char
    /\ String.get 19 token = Some variant
    /\ variant ∈ ["8"; "9"; "a"; "b"]%char.
Proof.
  unfold generateToken.
  destruct (uuid4 entropy) as [u | e] eqn:Hu; cycle 1.
  { exfalso. unfold uuid4, UUID in Hu.
    rewrite length_os_urandom in Hu. discriminate Hu. }
  pose proof (UUID_bound _ _ Hu) as Hbound.
  destruct (UUID_fixed_bits _ _ Hu) as (H76 & H77 & H78 & H79 & H62 & H63).
  assert (Hversion : (u / 16 ^ 19) mod 16 = 4).
  { rewrite (nibble_bits ((u / 16 ^ 19) mod 16))
      by (apply Z.mod_pos_bound; lia).
    rewrite !digit_testbit by lia.
    change (0 + 4 * 19) with 76. change (1 + 4 * 19) with 77.
    change (2 + 4 * 19) with 78. change (3 + 4 * 19) with 79.
    by rewrite H76, H77, H78, H79. }
  assert (Hvariant : 8 <= (u / 16 ^ 15) mod 16 <= 11).
  { rewrite (nibble_bits ((u / 16 ^ 15) mod 16))
      by (apply Z.mod_pos_bound; lia).
    rewrite !digit_testbit by lia.
    change (2 + 4 * 15) with 62. change (3 + 4 * 15) with 63.
    rewrite H62, H63.
    destruct (Z.testbit u (0 + 4 * 15)), (Z.testbit u (1 + 4 * 15)); simpl; lia. }
  pose proof (fixed_hex_nth 32 u 12 ltac:(lia)) as H12.
  pose proof (fixed_hex_nth 32 u 16 ltac:(lia)) as H16.
  change (Z.of_nat (32 - 1 - 12)) with 19 in H12.
  change (Z.of_nat (32 - 1 - 16)) with 15 in H16.
  rewrite Hversion in H12. change (hexdigit 4) with "4"%char in H12.
  exists (UUID_str u), (hexdigit ((u / 16 ^ 15) mod 16)).
  split; [reflexivity |].
  unfold UUID_str. rewrite (format_032x_fixed u Hbound).
  pose proof (length_fixed_hex 32 u) as Hlen.
  remember (fixed_hex 32 u) as hex eqn:Hhex. clear Hhex.
  do 32 (destruct hex as [| ? hex]; [discriminate Hlen |]).
  destruct hex; [| discriminate Hlen].
  cbn [nth] in H12, H16. subst.
  split; [reflexivity |]. split; [reflexivity |].
  set (y := (u / 16 ^ 15) mod 16) in *.
  assert (Hy : y = 8 \/ y = 9 \/ y = 10 \/ y = 11) by lia.
  apply list_elem_of_In.
  destruct Hy as [-> | [-> | [-> | ->]]]; simpl; tauto.
Qed.

Lemma hexvalue_hexdigit (d : Z) : 0 <= d < 16 -> hexvalue (hexdigit d) = d.
Proof.
  intros Hd.
  assert (Hcases : d = 0 \/ d = 1 \/ d = 2 \/ d = 3 \/ d = 4 \/ d = 5 \/ d = 6
                   \/ d = 7 \/ d = 8 \/ d = 9 \/ d = 10 \/ d = 11 \/ d = 12
                   \/ d = 13 \/ d = 14 \/ d = 15) by lia.
  repeat (destruct Hcases as [-> | Hcases]; [reflexivity |]). by subst.
Qed.

(** The digits determine the number. *)
Lemma fixed_hex_inj (n : nat) (v v' : Z) :
  0 <= v < 16 ^ Z.of_nat n -> 0 <= v' < 16 ^ Z.of_nat n ->
  fixed_hex n v = fixed_hex n v' -> v = v'.
Proof.
  revert v v'. induction n as [| n IH]; intros v v' Hv Hv' Heq.
  - change (16 ^ Z.of_nat 0) with 1 in *. lia.
  - cbn [fixed_hex] in Heq. apply app_inj_tail in Heq as [Hhigh Hlow].
    rewrite Nat2Z.inj_succ, Z.pow_succ_r in Hv, Hv' by lia.
    assert (Hdiv : v / 16 = v' / 16).
    { apply IH; [| | exact Hhigh];
        (split; [apply Z.div_pos; lia | apply Z.div_lt_upper_bound; lia]). }
    assert (Hmod : v mod 16 = v' mod 16).
    { rewrite <- (hexvalue_hexdigit (v mod 16)) by (apply Z.mod_pos_bound; lia).
      rewrite <- (hexvalue_hexdigit (v' mod 16)) by (apply Z.mod_pos_bound; lia).
      by rewrite Hlow. }
    rewrite (Z.div_mod v 16), (Z.div_mod v' 16) by lia. by rewrite Hdiv, Hmod.
Qed.

(** The text of a UUID determines its 32 digits. *)
Lemma UUID_str_digits (u u' : Z) :
  0 <= u < 2 ^ 128 -> 0 <= u' < 2 ^ 128 ->
  UUID_str u = UUID_str u' -> fixed_hex 32 u = fixed_hex 32 u'.
Proof.
  intros Hu Hu' Heq. unfold UUID_str in Heq.
  rewrite (format_032x_fixed u Hu), (format_032x_fixed u' Hu') in Heq.
  apply (f_equal list_ascii_of_string) in Heq.
  rewrite !list_ascii_of_string_of_list_ascii in Heq.
  pose proof (length_fixed_hex 32 u) as Hlen.
  pose proof (length_fixed_hex 32 u') as Hlen'.
  remember (fixed_hex 32 u) as hex eqn:Hhex. clear Hhex.
  remember (fixed_hex 32 u') as hex' eqn:Hhex'. clear Hhex'.
  do 32 (destruct hex as [| ? hex]; [discriminate Hlen |]).
  destruct hex; [| discriminate Hlen].
  do 32 (destruct hex' as [| ? hex']; [discriminate Hlen' |]).
  destruct hex'; [| discriminate Hlen'].
  cbn in Heq. by simplify_eq.
Qed.

(** X17 -- the text of an identifier is faithful: if [generateToken] returns
    the same token for two entropy sources, then [uuid4] builds the same
    128-bit identifier from them; two different identifiers never yield the
    same token. *)
Theorem UUIDTokenFactory_generateToken_injective {Client : Type}
    (lifetime lifetime' : pyobj) (client client' : Client)
    (scope scope' additionalData additionalData' : pyobj)
    (entropy entropy' : nat -> Byte.byte) :
  generateToken lifetime client scope additionalData entropy
  = generateToken lifetime' client' scope' additionalData' entropy' ->
  uuid4 entropy = uuid4 entropy'.
Proof.
  unfold generateToken.
  destruct (uuid4 entropy) as [u | e] eqn:Hu; cycle 1.
  { exfalso. unfold uuid4, UUID in Hu.
    rewrite length_os_urandom in Hu. discriminate Hu. }
  destruct (uuid4 entropy') as [u' | e] eqn:Hu'; cycle 1.
  { exfalso. unfold uuid4, UUID in Hu'.
    rewrite length_os_urandom in Hu'. discriminate Hu'. }
  intros [= Heq]. f_equal.
  pose proof (UUID_bound _ _ Hu) as Hb. pose proof (UUID_bound _ _ Hu') as Hb'.
  apply (fixed_hex_inj 32); [exact Hb | exact Hb' |].
  by apply UUID_str_digits.
Qed.

End UUIDDigits.

Lemma UUIDTokenFactory_generateToken_injective_witness :
  UUIDTokenFactory.generateToken PyNone Fixtures.test_client Fixtures._VALID_SCOPE
    PyNone Fixtures.entropy_ff
  = UUIDTokenFactory.generateToken (PyInt 200) Fixtures.new_client PyNone PyNone
      (fun i => if (i <? 16)%nat then Byte.xff else Byte.x00)
  /\ UUIDTokenFactory.uuid4 Fixtures.entropy_ff
     = UUIDTokenFactory.uuid4 (fun i => if (i <? 16)%nat then Byte.xff else Byte.x00).
Proof.
  assert (Heq :
    UUIDTokenFactory.generateToken PyNone Fixtures.test_client Fixtures._VALID_SCOPE
      PyNone Fixtures.entropy_ff
    = UUIDTokenFactory.generateToken (PyInt 200) Fixtures.new_client PyNone PyNone
        (fun i => if (i <? 16)%nat then Byte.xff else Byte.x00))
    by (vm_compute; reflexivity).
  split; [exact Heq |].
  exact (UUIDTokenFactory_generateToken_injective _ _ _ _ _ _ _ _ _ _ Heq).
Defined.

(** ** ConfigParserClientStorage: validation happens on the way out *)

Section ClientStorageValidation.

Import Clients ConfigParserClientStorage Notions.

Variable value : ClientAuthType -> Z.
Variable int_of_text : string -> option Z.

(** [getClient] after [addClient], for any client object whose redirect URIs
    are words: the attributes stored are handed to the constructor of
    [Client]. *)
Lemma getClient_after_addClient (c : Client) (os : os_outcome) (st : Storage) :
  value PUBLIC <> value SECRET ->
  Forall (fun u => u <> "" /\ PyStr.no_whitespace u = true) (redirectUris c) ->
  let st' := (addClient value c os st).2 in
  getClient value int_of_text (id c) st'
  = (Clients.__init__ (id c) (redirectUris c) (authType c) (authToken c), st').
Proof.
  intros Hinj Hwords. cbn zeta.
  rewrite addClient_eval. cbn [snd].
  set (st' := mkStorage _ _ _).
  assert (Hlook :
    RawConfigParser._sections (_configParser st') !! ("client_" +:+ id c)
    = Some (client_section value c
              (default ∅ (RawConfigParser._sections (_configParser st)
                          !! ("client_" +:+ id c))))).
  { unfold st', parser_with_client. cbn. apply lookup_insert_eq. }
  unfold getClient. unfold Eff.bind at 1. unfold read_parser at 1.
  assert (Hhas : RawConfigParser.has_section (_configParser st')
                   ("client_" +:+ id c) = true).
  { apply has_section_lookup. by rewrite Hlook. }
  rewrite Hhas. cbn [negb].
  unfold Eff.bind at 1. unfold read_parser at 1.
  erewrite (get_in_section _ _ "redirect_uris");
    [| exact Hlook | unfold client_section; by simplify_map_eq].
  unfold Eff.bind at 1. unfold lift at 1.
  unfold Eff.bind at 1. unfold read_parser at 1.
  unfold RawConfigParser.getint.
  erewrite (get_in_section _ _ "auth_type");
    [| exact Hlook | unfold client_section; by simplify_map_eq].
  cbn [RawConfigParser.int].
  unfold Eff.bind at 1. unfold lift at 1.
  assert (Htag : ClientAuthType_of_value value (value (authType c)) = Ok (authType c)).
  { unfold ClientAuthType_of_value. destruct (authType c).
    - by rewrite bool_decide_eq_true_2.
    - rewrite (bool_decide_eq_false_2 _ Hinj). by rewrite bool_decide_eq_true_2. }
  rewrite Htag.
  unfold Eff.bind at 1. unfold read_parser at 1.
  erewrite (get_in_section _ _ "auth_token");
    [| exact Hlook | unfold client_section; by simplify_map_eq].
  unfold lift. by rewrite (split_join _ Hwords).
Qed.

(** X18 -- [addClient] does not validate, [getClient] does: a client object
    with a redirect URI the [Client] constructor rejects (its URIs being
    words) is stored without error, and reading it back raises
    [ValueError]. *)
Theorem ConfigParserClientStorage_invalid_client_rejected_on_read
    (c : Client) (st : Storage) :
  value PUBLIC <> value SECRET ->
  Forall (fun u => u <> "" /\ PyStr.no_whitespace u = true) (redirectUris c) ->
  Clients.valid c = false ->
  (addClient value c Written st).1 = Ok tt
  /\ (getClient value int_of_text (id c) (addClient value c Written st).2).1
     = Raise ValueError.
Proof.
  intros Hinj Hwords Hinvalid. split.
  - by rewrite addClient_eval.
  - rewrite (getClient_after_addClient c Written st Hinj Hwords). cbn [fst].
    unfold Clients.__init__. unfold Clients.valid in Hinvalid.
    by rewrite Hinvalid.
Qed.

End ClientStorageValidation.

Lemma ConfigParserClientStorage_invalid_client_rejected_on_read_witness :
  Fixtures.auth_type_value Clients.PUBLIC <> Fixtures.auth_type_value Clients.SECRET
  /\ Clients.valid Fixtures.relative_client = false
  /\ (ConfigParserClientStorage.addClient Fixtures.auth_type_value
        Fixtures.relative_client ConfigParserClientStorage.Written Fixtures.empty_storage).1 = Ok tt
  /\ (ConfigParserClientStorage.getClient Fixtures.auth_type_value Fixtures.decimal
        "relative"
        (ConfigParserClientStorage.addClient Fixtures.auth_type_value
           Fixtures.relative_client ConfigParserClientStorage.Written Fixtures.empty_storage).2).1
     = Raise ValueError.
Proof.
  assert (Hinj : Fixtures.auth_type_value Clients.PUBLIC
                 <> Fixtures.auth_type_value Clients.SECRET) by (simpl; lia).
  assert (Hwords : Forall (fun u => u <> "" /\ PyStr.no_whitespace u = true)
                     (Clients.redirectUris Fixtures.relative_client)).
  { repeat constructor. discriminate. }
  assert (Hinvalid : Clients.valid Fixtures.relative_client = false) by reflexivity.
  split; [exact Hinj | split; [exact Hinvalid |]].
  exact (ConfigParserClientStorage_invalid_client_rejected_on_read
           Fixtures.auth_type_value Fixtures.decimal Fixtures.relative_client
           Fixtures.empty_storage Hinj Hwords Hinvalid).
Defined.

(** ** UUIDTokenFactory: the token and the random bytes *)

Section UUIDReading.

Import UUIDTokenFactory Notions RFC4122.

Lemma hex_value_hexdigit (d : Z) : 0 <= d < 16 -> hex_value (hexdigit d) = Some d.
Proof.
  intros Hd.
  assert (Hcases : d = 0 \/ d = 1 \/ d = 2 \/ d = 3 \/ d = 4 \/ d = 5 \/ d = 6
                   \/ d = 7 \/ d = 8 \/ d = 9 \/ d = 10 \/ d = 11 \/ d = 12
                   \/ d = 13 \/ d = 14 \/ d = 15) by lia.
  repeat (destruct Hcases as [-> | Hcases]; [reflexivity |]). by subst.
Qed.

Lemma read_hex_app (l1 l2 : list ascii) (acc : Z) :
  read_hex (l1 ++ l2) acc
  = match read_hex l1 acc with
    | Some a => read_hex l2 a
    | None => None
    end.
Proof.
  revert acc. induction l1 as [| c l1 IH]; intros acc; [reflexivity |].
  cbn [app read_hex]. destruct (hex_value c); [apply IH | reflexivity].
Qed.

(** Reading the fixed-width digits of a number gives the number back. *)
Lemma read_hex_fixed (n : nat) (v acc : Z) :
  read_hex (fixed_hex n v) acc = Some (acc * 16 ^ Z.of_nat n + v mod 16 ^ Z.of_nat n).
Proof.
  revert v acc. induction n as [| n IH]; intros v acc.
  - cbn [fixed_hex read_hex]. change (16 ^ Z.of_nat 0) with 1.
    rewrite Z.mod_1_r. f_equal. lia.
  - cbn [fixed_hex]. rewrite read_hex_app, IH. cbn [read_hex].
    rewrite hex_value_hexdigit by (apply Z.mod_pos_bound; lia).
    f_equal. rewrite Nat2Z.inj_succ, Z.pow_succ_r by lia.
    assert (Hpos : 0 < 16 ^ Z.of_nat n) by (apply Z.pow_pos_nonneg; lia).
    rewrite (Z.rem_mul_r v 16 (16 ^ Z.of_nat n)) by lia.
    lia.
Qed.

(** The hyphens of the canonical form carry no value. *)
Lemma read_uuid_hyphenated (hex : list ascii) :
  length hex = 32%nat ->
  read_uuid 0
    (take 8 hex ++ "-"%char :: take 4 (drop 8 hex) ++ "-"%char
       :: take 4 (drop 12 hex) ++ "-"%char :: take 4 (drop 16 hex)
       ++ "-"%char :: drop 20 hex) 0
  = read_hex hex 0.
Proof.
  intros Hlen.
  do 32 (destruct hex as [| ? hex]; [discriminate Hlen |]).
  destruct hex; [| discriminate Hlen].
  reflexivity.
Qed.

(** The reader of the canonical form inverts [str] on 128-bit values. *)
Lemma uuid_of_text_UUID_str (u : Z) :
  0 <= u < 2 ^ 128 -> uuid_of_text (UUID_str u) = Some u.
Proof.
  intros Hu. unfold uuid_of_text, UUID_str.
  rewrite list_ascii_of_string_of_list_ascii, (format_032x_fixed u Hu).
  rewrite read_uuid_hyphenated by apply length_fixed_hex.
  rewrite read_hex_fixed. f_equal.
  change (16 ^ Z.of_nat 32) with (2 ^ 128). rewrite Z.mod_small by lia. lia.
Qed.

Lemma int_from_bytes_snoc (bs : list Byte.byte) (b : Byte.byte) :
  int_from_bytes (bs ++ [b]) = int_from_bytes bs * 256 + Z.of_N (Byte.to_N b).
Proof. unfold int_from_bytes. by rewrite fold_left_app. Qed.

(** The bytes of [int.from_bytes(bs, 'big')] are those of [bs], the first one
    the most significant. *)
Lemma int_from_bytes_nth (bs : list Byte.byte) (i : nat) :
  (i < length bs)%nat ->
  (int_from_bytes bs / 256 ^ Z.of_nat (length bs - 1 - i)) mod 256
  = Z.of_N (Byte.to_N (nth i bs Byte.x00)).
Proof.
  revert i. induction bs as [| b bs IH] using rev_ind; intros i Hi;
    [simpl in Hi; lia |].
  rewrite length_app in *. cbn [length] in *.
  rewrite int_from_bytes_snoc.
  pose proof (Byte.to_N_bounded b) as Hb.
  destruct (decide (i = length bs)) as [-> | Hne].
  - replace (length bs + 1 - 1 - length bs)%nat with 0%nat by lia.
    change (256 ^ Z.of_nat 0) with 1. rewrite Z.div_1_r.
    rewrite app_nth2 by lia. replace (length bs - length bs)%nat with 0%nat by lia.
    cbn [nth]. rewrite Z.add_comm, Z.mod_add by lia. apply Z.mod_small. lia.
  - rewrite app_nth1 by lia.
    replace (length bs + 1 - 1 - i)%nat with (S (length bs - 1 - i)) by lia.
    rewrite Nat2Z.inj_succ, Z.pow_succ_r by lia.
    rewrite <- Z.div_div by (try apply Z.pow_pos_nonneg; lia).
    rewrite Z.div_add_l by lia.
    rewrite (Z.div_small (Z.of_N (Byte.to_N b)) 256) by lia.
    rewrite Z.add_0_r. apply IH. lia.
Qed.

(** The 16 bytes [uuid4] reads are the first 16 of the entropy source. *)
Lemma entropy_bytes (entropy : nat -> Byte.byte) (i : nat) :
  (i < 16)%nat ->
  (int_from_bytes (os_urandom entropy 16) / 256 ^ Z.of_nat (15 - i)) mod 256
  = Z.of_N (Byte.to_N (entropy i)).
Proof.
  intros Hi.
  pose proof (int_from_bytes_nth (os_urandom entropy 16) i) as Hnth.
  rewrite length_os_urandom in Hnth. specialize (Hnth Hi).
  change (16 - 1 - i)%nat with (15 - i)%nat in Hnth. rewrite Hnth.
  do 16 (destruct i as [| i]; [reflexivity |]). lia.
Qed.

Lemma version4_bit_other (n : Z) (b : bool) :
  n < 62 \/ 63 < n < 76 \/ 79 < n -> version4_bit n b = b.
Proof.
  intros Hn. unfold version4_bit.
  repeat match goal with
         | |- context [?a =? ?c] => destruct (Z.eqb_spec a c); [lia |]
         end.
  reflexivity.
Qed.

(** [UUID] leaves every bit of the bytes as it is, but for the six bits of
    the version and the variant. *)
Lemma UUID_bits (bs : list Byte.byte) (u : Z) :
  UUID bs 4 = Ok u ->
  forall n, 0 <= n ->
    Z.testbit u n = version4_bit n (Z.testbit (int_from_bytes bs) n).
Proof.
  unfold UUID. destruct (negb _); [discriminate |]. intros [= <-] n Hn.
  set (x := int_from_bytes bs).
  rewrite Z.lor_spec, Z.land_spec, Z.lor_spec, Z.land_spec.
  destruct (Z_lt_le_dec n 48) as [Hlow | Hge48].
  { rewrite version4_bit_other by lia.
    rewrite !Z.lnot_spec, !Z.shiftl_spec by lia.
    rewrite (Z.testbit_neg_r 49152), (Z.testbit_neg_r 32768),
      (Z.testbit_neg_r 61440), (Z.testbit_neg_r 4) by lia.
    cbn [negb].
    by rewrite andb_true_r, orb_false_r, andb_true_r, orb_false_r. }
  destruct (Z_lt_le_dec 79 n) as [Hhigh | Hle79].
  { rewrite version4_bit_other by lia.
    rewrite !Z.lnot_spec, !Z.shiftl_spec by lia.
    rewrite (Z.bits_above_log2 49152) by (change (Z.log2 49152) with 15; lia).
    rewrite (Z.bits_above_log2 32768) by (change (Z.log2 32768) with 15; lia).
    rewrite (Z.bits_above_log2 61440) by (change (Z.log2 61440) with 15; lia).
    rewrite (Z.bits_above_log2 4) by (change (Z.log2 4) with 2; lia).
    cbn [negb].
    by rewrite andb_true_r, orb_false_r, andb_true_r, orb_false_r. }
  assert (Hcases : n = 48 \/ n = 49 \/ n = 50 \/ n = 51 \/ n = 52 \/ n = 53 \/ n = 54 \/ n = 55 \/ n = 56 \/ n = 57 \/ n = 58 \/ n = 59 \/ n = 60 \/ n = 61 \/ n = 62 \/ n = 63 \/ n = 64 \/ n = 65 \/ n = 66 \/ n = 67 \/ n = 68 \/ n = 69 \/ n = 70 \/ n = 71 \/ n = 72 \/ n = 73 \/ n = 74 \/ n = 75 \/ n = 76 \/ n = 77 \/ n = 78 \/ n = 79) by lia.
  repeat (destruct Hcases as [-> | Hcases];
          [match goal with
           | |- context [Z.testbit x ?k] => destruct (Z.testbit x k)
           end; reflexivity |]).
  subst. destruct (Z.testbit x 79); reflexivity.
Qed.

End UUIDReading.

Section UUIDTokenClaim.

Import UUIDTokenFactory RFC4122.

Lemma hyphen_not_alphanumeric (punctuation : list ascii) :
  "-"%char ∈ TokenResource.VALID_TOKEN_CHARS punctuation -> "-"%char ∈ punctuation.
Proof.
  unfold TokenResource.VALID_TOKEN_CHARS. rewrite elem_of_app.
  intros [Halnum | Hp]; [| exact Hp].
  exfalso. revert Halnum. apply (bool_decide_eq_false _). by vm_compute.
Qed.

(** The text of an identifier is a valid token for exactly the alphabets
    that have the hyphen. *)
Lemma UUID_str_valid_iff (punctuation : list ascii) (u : Z) :
  0 <= u < 2 ^ 128 ->
  TokenResource.isValidToken punctuation (UUID_str u) = true
  <-> "-"%char ∈ punctuation.
Proof.
  intros Hu. split.
  - unfold TokenResource.isValidToken. rewrite andb_true_iff.
    intros [_ Hall]. rewrite forallb_forall in Hall.
    apply hyphen_not_alphanumeric.
    apply (bool_decide_eq_true _). apply Hall. apply list_elem_of_In.
    unfold UUID_str. rewrite list_ascii_of_string_of_list_ascii.
    apply elem_of_app. right. by apply elem_of_cons; left.
  - intros Hhyphen. apply canonical_form_valid; [exact Hhyphen |].
    by apply UUID_str_canonical.
Qed.

(** C8 -- whatever the four arguments are, [generateToken] returns the
    canonical hyphenated hexadecimal text of a 128-bit identifier made of
    the random bytes.  There is a number [x] whose 16 bytes, most significant
    first, are the 16 bytes the entropy source yields; the identifier [u]
    that [uuid4] builds has every bit of [x] but the six bits of the version
    and the variant, which are fixed; the token is the text that reads back
    as [u] (36 characters, hyphens at 8, 13, 18 and 23, lower-case
    hexadecimal digits elsewhere); the four arguments have no part in it;
    and it is a valid token -- for the alphabet with the punctuation of
    bearer tokens, and for exactly those alphabets of alphanumerics and
    punctuation that have the hyphen. *)
Theorem UUIDTokenFactory_generateToken_spec {Client : Type}
    (lifetime : pyobj) (client : Client) (scope additionalData : pyobj)
    (entropy : nat -> Byte.byte) :
  exists (token : string) (u x : Z),
    generateToken lifetime client scope additionalData entropy = Ok token
    /\ (forall i, (i < 16)%nat ->
        (x / 256 ^ Z.of_nat (15 - i)) mod 256 = Z.of_N (Byte.to_N (entropy i)))
    /\ 0 <= x < 2 ^ 128
    /\ uuid4 entropy = Ok u
    /\ 0 <= u < 2 ^ 128
    /\ (forall n, 0 <= n -> Z.testbit u n = version4_bit n (Z.testbit x n))
    /\ uuid_of_text token = Some u
    /\ canonical_form token = true
    /\ TokenResource.isValidToken TokenResource.URL_SAFE_PUNCTUATION token = true
    /\ (forall punctuation : list ascii,
          TokenResource.isValidToken punctuation token = true
          <-> "-"%char ∈ punctuation)
    /\ (forall (Client' : Type) (lifetime' : pyobj) (client' : Client')
               (scope' additionalData' : pyobj),
          generateToken lifetime' client' scope' additionalData' entropy = Ok token).
Proof.
  unfold generateToken.
  destruct (uuid4 entropy) as [u | e] eqn:Hu; cycle 1.
  { exfalso. unfold uuid4, UUID in Hu.
    rewrite length_os_urandom in Hu. discriminate Hu. }
  pose proof (UUID_bound _ _ Hu) as Hbound.
  exists (UUID_str u), u, (int_from_bytes (os_urandom entropy 16)).
  split; [reflexivity |].
  split; [intros i Hi; by apply entropy_bytes |].
  split.
  { pose proof (int_from_bytes_bound (os_urandom entropy 16)) as Hx.
    rewrite length_os_urandom in Hx. exact Hx. }
  split; [reflexivity |]. split; [exact Hbound |].
  split; [exact (UUID_bits _ _ Hu) |].
  split; [by apply uuid_of_text_UUID_str |].
  split; [by apply UUID_str_canonical |].
  split.
  { apply UUID_str_valid_iff; [exact Hbound |].
    apply list_elem_of_In. simpl. tauto. }
  split; [intros punctuation; by apply UUID_str_valid_iff | reflexivity].
Qed.

Lemma UUIDTokenFactory_generateToken_spec_witness :
  exists (token : string) (u : Z),
    generateToken PyNone Fixtures.test_client Fixtures._VALID_SCOPE PyNone
      Fixtures.entropy_count = Ok token
    /\ uuid4 Fixtures.entropy_count = Ok u
    /\ uuid_of_text token = Some u
    /\ canonical_form token = true
    /\ TokenResource.isValidToken Fixtures.b64token_punctuation token = true
    /\ generateToken (PyInt 200) Fixtures.new_client PyNone (PyStr "data")
         Fixtures.entropy_count = Ok token.
Proof.
  destruct (UUIDTokenFactory_generateToken_spec PyNone Fixtures.test_client
              Fixtures._VALID_SCOPE PyNone Fixtures.entropy_count)
    as (token & u & x & Hgen & _ & _ & Hu & _ & _ & Hread & Hcanon & _ & Hvalid
        & Hindep).
  exists token, u. split; [exact Hgen |]. split; [exact Hu |].
  split; [exact Hread |]. split; [exact Hcanon |].
  split; [| apply Hindep].
  apply Hvalid. apply list_elem_of_In. simpl. tauto.
Defined.

(** The reader on the text for the counting entropy source, and on texts
    that are not in canonical form. *)
Example uuid_of_text_count :
  uuid_of_text "00112233-4455-4677-8899-aabbccddeeff"
  = Some 0x00112233445546778899aabbccddeeff.
Proof. vm_compute. reflexivity. Qed.

Example uuid_of_text_rejects :
  uuid_of_text "00112233-4455-4677-8899-AABBCCDDEEFF" = None
  /\ uuid_of_text "00112233445546778899aabbccddeeff" = None
  /\ uuid_of_text "00112233-4455-4677-8899-aabbccddeef" = None
  /\ uuid_of_text "" = None.
Proof. repeat split; vm_compute; reflexivity. Qed.

End UUIDTokenClaim.
